(** * A verified model of merged_delivery_bot.py

    The development embeds the delivery-cost bot: Python's [decimal]
    values as the program uses them (default context: 28 significant
    digits, ROUND_HALF_EVEN, traps on InvalidOperation, DivisionByZero and
    Overflow), [parse_decimal], the per-user settings files, the three-source
    rate lookup with its cached fallback, the aiogram finite-state handlers
    and the final cost computation. *)

From Stdlib Require Import ZArith NArith Ascii String List Bool Lia.
From stdpp Require Import gmap strings list fin_maps.

Local Open Scope Z_scope.

(** ** Exceptions and fallible results *)

Inductive exn : Type :=
| InvalidOperation      (* decimal.InvalidOperation (an ArithmeticError) *)
| DivisionByZero        (* decimal.DivisionByZero *)
| Overflow              (* decimal.Overflow *)
| ValueError            (* raised by parse_decimal and the range checks *)
| KeyError              (* data['...'] on a missing key *)
| AttributeError        (* .text on a missing XML element *)
| OtherError.           (* network, XML or JSON failure *)

Inductive result (A : Type) : Type :=
| Ok (a : A)
| Raise (e : exn).
Arguments Ok {A} a.
Arguments Raise {A} e.

#[global] Instance result_ret : MRet result := fun A a => Ok a.
#[global] Instance result_bind : MBind result := fun A B k r =>
  match r with
  | Ok a => k a
  | Raise e => Raise e
  end.

(** ** Python's Decimal *)

Module Dec.

(** Values and operations follow the decimal module (its reference
    implementation _pydecimal) in the default context; as there, the
    constructor from text does not round and does not bound the exponent.

    [Fin s c e] is (-1)^s * c * 10^e, i.e. the triple (_sign, _int, _exp);
    [Inf] is _exp = 'F'; [NaN s sig d] is _exp = 'n' (quiet) or 'N'
    (signaling) with diagnostic digits [d]. *)
Inductive Decimal : Type :=
| Fin (sign : bool) (coeff : N) (exp : Z)
| Inf (sign : bool)
| NaN (sign : bool) (signaling : bool) (diag : N).

(** *** Decimal digits of a coefficient *)

Fixpoint digits_aux (fuel : nat) (n : N) (acc : list N) : list N :=
  match fuel with
  | O => acc
  | S f =>
      if (n <? 10)%N then n :: acc
      else digits_aux f (n / 10)%N ((n mod 10)%N :: acc)
  end.

(** The digits of str(n), most significant first; str(0) is "0". *)
Definition digits (n : N) : list N :=
  digits_aux (S (N.to_nat (N.size n))) n [].

Definition undigits (l : list N) : N :=
  fold_left (fun a d => (10 * a + d)%N) l 0%N.

(** len(self._int) *)
Definition ndigits (n : N) : Z := Z.of_nat (length (digits n)).

Definition digit_char (d : N) : ascii := ascii_of_N (48 + d).

Definition is_digit (c : ascii) : bool :=
  let n := N_of_ascii c in ((48 <=? n) && (n <=? 57))%N.

Definition digit_val (c : ascii) : N := (N_of_ascii c - 48)%N.

Definition digit_chars (n : N) : list ascii := map digit_char (digits n).

Definition int_of_chars (l : list ascii) : N := undigits (map digit_val l).

(** *** The context: decimal.getcontext() defaults *)

Definition prec : Z := 28.
Definition Emax : Z := 999999.
Definition Emin : Z := -999999.
Definition Etiny : Z := Emin - prec + 1.
Definition Etop : Z := Emax - prec + 1.

(** Decimal._fix for a finite triple: round to the context.  The three
    rounding cases of _round_half_even on the dropped digits are written
    arithmetically: [r] is the dropped part, [p] its weight. *)
Definition fix_ (s : bool) (c : N) (e : Z) : result Decimal :=
  if (c =? 0)%N then
    Ok (Fin s 0 (Z.min (Z.max e Etiny) Emax))
  else
    let exp_min0 := ndigits c + e - prec in
    if exp_min0 >? Etop then Raise Overflow
    else
      let exp_min := Z.max exp_min0 Etiny in
      if e <? exp_min then
        let p := (10 ^ Z.to_N (exp_min - e))%N in
        let q := (c / p)%N in
        let r := (c mod p)%N in
        let up := ((p <? 2 * r) || ((2 * r =? p) && N.odd q))%N in
        if up then
          let q' := (q + 1)%N in
          if ndigits q' >? prec then
            if exp_min + 1 >? Etop then Raise Overflow
            else Ok (Fin s (q' / 10)%N (exp_min + 1))
          else Ok (Fin s q' exp_min)
        else Ok (Fin s q exp_min)
      else Ok (Fin s c e).

(** Decimal._fix_nan: the payload keeps at most [prec] digits. *)
Definition fix_nan (s sg : bool) (d : N) : Decimal :=
  NaN s sg (d mod 10 ^ Z.to_N prec)%N.

(** Decimal._check_nans: a signaling NaN raises, a quiet one is the result. *)
Definition check_nans (a b : Decimal) : option (result Decimal) :=
  match a, b with
  | NaN _ true _, _ => Some (Raise InvalidOperation)
  | _, NaN _ true _ => Some (Raise InvalidOperation)
  | NaN s false d, _ => Some (Ok (fix_nan s false d))
  | _, NaN s false d => Some (Ok (fix_nan s false d))
  | _, _ => None
  end.

Definition is_zero (a : Decimal) : bool :=
  match a with
  | Fin _ c _ => (c =? 0)%N
  | _ => false
  end.

(** Decimal.__bool__ *)
Definition truthy (a : Decimal) : bool := negb (is_zero a).

Definition negate (a : Decimal) : Decimal :=
  match a with
  | Fin s c e => Fin (negb s) c e
  | Inf s => Inf (negb s)
  | NaN s sg d => NaN (negb s) sg d
  end.

Definition signed (s : bool) (c : N) : Z :=
  if s then - Z.of_N c else Z.of_N c.

(** Decimal.__mul__ *)
Definition mul (a b : Decimal) : result Decimal :=
  match check_nans a b with
  | Some r => r
  | None =>
      match a, b with
      | Fin s1 c1 e1, Fin s2 c2 e2 => fix_ (xorb s1 s2) (c1 * c2)%N (e1 + e2)
      | Inf s1, Fin s2 c2 _ =>
          if (c2 =? 0)%N then Raise InvalidOperation else Ok (Inf (xorb s1 s2))
      | Fin s1 c1 _, Inf s2 =>
          if (c1 =? 0)%N then Raise InvalidOperation else Ok (Inf (xorb s1 s2))
      | Inf s1, Inf s2 => Ok (Inf (xorb s1 s2))
      | _, _ => Raise InvalidOperation
      end
  end.

(** Decimal.__add__: the exact sum at the smaller exponent, then _fix.
    (__add__ shortens very distant operands first; that only replaces
    digits that cannot change the rounded result.) *)
Definition add (a b : Decimal) : result Decimal :=
  match check_nans a b with
  | Some r => r
  | None =>
      match a, b with
      | Fin s1 c1 e1, Fin s2 c2 e2 =>
          let e := Z.min e1 e2 in
          let z := signed s1 c1 * 10 ^ (e1 - e) + signed s2 c2 * 10 ^ (e2 - e) in
          let s :=
            if z =? 0 then
              ((c1 =? 0)%N && (c2 =? 0)%N && s1 && s2)
            else z <? 0 in
          fix_ s (Z.abs_N z) e
      | Inf s1, Inf s2 =>
          if negb (Bool.eqb s1 s2) then Raise InvalidOperation else Ok (Inf s1)
      | Inf s1, _ => Ok (Inf s1)
      | _, Inf s2 => Ok (Inf s2)
      | _, _ => Raise InvalidOperation
      end
  end.

(** Decimal.__sub__ *)
Definition sub (a b : Decimal) : result Decimal :=
  match check_nans a b with
  | Some r => r
  | None => add a (negate b)
  end.

(** The loop of __truediv__ that removes trailing zeros of an exact
    quotient while the exponent is below the ideal one. *)
Fixpoint strip_zeros (fuel : nat) (coeff : N) (exp ideal : Z) : N * Z :=
  match fuel with
  | O => (coeff, exp)
  | S f =>
      if (exp <? ideal) && (coeff mod 10 =? 0)%N
      then strip_zeros f (coeff / 10)%N (exp + 1) ideal
      else (coeff, exp)
  end.

(** Decimal.__truediv__ *)
Definition div (a b : Decimal) : result Decimal :=
  match check_nans a b with
  | Some r => r
  | None =>
      match a, b with
      | Inf _, Inf _ => Raise InvalidOperation
      | Inf s1, Fin s2 _ _ => Ok (Inf (xorb s1 s2))
      | Fin s1 _ _, Inf s2 => Ok (Fin (xorb s1 s2) 0 Etiny)
      | Fin s1 c1 e1, Fin s2 c2 e2 =>
          let sign := xorb s1 s2 in
          if (c2 =? 0)%N then
            if (c1 =? 0)%N then Raise InvalidOperation else Raise DivisionByZero
          else if (c1 =? 0)%N then fix_ sign 0 (e1 - e2)
          else
            let shift := ndigits c2 - ndigits c1 + prec + 1 in
            let exp := e1 - e2 - shift in
            let num := if 0 <=? shift then (c1 * 10 ^ Z.to_N shift)%N else c1 in
            let den := if 0 <=? shift then c2 else (c2 * 10 ^ Z.to_N (- shift))%N in
            let coeff := (num / den)%N in
            let remainder := (num mod den)%N in
            if negb (remainder =? 0)%N then
              fix_ sign (if (coeff mod 5 =? 0)%N then coeff + 1 else coeff)%N exp
            else
              let '(coeff', exp') :=
                strip_zeros (Z.to_nat (e1 - e2 - exp)) coeff exp (e1 - e2) in
              fix_ sign coeff' exp'
      | _, _ => Raise InvalidOperation
      end
  end.

Definition is_nan (a : Decimal) : bool :=
  match a with
  | NaN _ _ _ => true
  | _ => false
  end.

(** Decimal._cmp on operands that are not NaN. *)
Definition cmp (a b : Decimal) : comparison :=
  match a, b with
  | Fin s1 c1 e1, Fin s2 c2 e2 =>
      let e := Z.min e1 e2 in
      (signed s1 c1 * 10 ^ (e1 - e) ?= signed s2 c2 * 10 ^ (e2 - e))
  | Inf s1, Inf s2 => if Bool.eqb s1 s2 then Eq else if s1 then Lt else Gt
  | Inf s1, _ => if s1 then Lt else Gt
  | _, Inf s2 => if s2 then Gt else Lt
  | _, _ => Eq
  end.

(** The ordering operators: a NaN operand signals InvalidOperation, which
    the default context traps. *)
Definition compare_with (f : comparison -> bool) (a b : Decimal) : result bool :=
  if is_nan a || is_nan b then Raise InvalidOperation else Ok (f (cmp a b)).

Definition gt := compare_with (fun c => match c with Gt => true | _ => false end).
Definition lt := compare_with (fun c => match c with Lt => true | _ => false end).
Definition le := compare_with (fun c => match c with Gt => false | _ => true end).

(** Decimal(n) for a Python int, as in [x / 100] and [x <= 0]. *)
Definition of_int (n : Z) : Decimal := Fin (n <? 0) (Z.abs_N n) 0.

(** *** Decimal(text): the constructor from a string

    Text is a byte string; code points outside ASCII are taken to be neither
    digits nor white space.  The constructor strips white space, removes
    underscores and matches, ignoring case,
    an optional sign followed by a digits form, by Inf or Infinity, or by NaN
    or sNaN with optional diagnostic digits, up to the end of the text. *)

Definition is_space (c : ascii) : bool :=
  let n := N_of_ascii c in
  (((9 <=? n) && (n <=? 13)) || ((28 <=? n) && (n <=? 32)))%N.

Definition lower (c : ascii) : ascii :=
  let n := N_of_ascii c in
  if ((65 <=? n) && (n <=? 90))%N then ascii_of_N (n + 32) else c.

Fixpoint lstrip (l : list ascii) : list ascii :=
  match l with
  | c :: r => if is_space c then lstrip r else l
  | [] => []
  end.

Definition strip (l : list ascii) : list ascii :=
  rev (lstrip (rev (lstrip l))).

Definition is_underscore (c : ascii) : bool := (N_of_ascii c =? 95)%N.

Fixpoint span_digits (l : list ascii) : list ascii * list ascii :=
  match l with
  | c :: r =>
      if is_digit c then let '(d, r') := span_digits r in (c :: d, r')
      else ([], l)
  | [] => ([], [])
  end.

Definition split_sign (l : list ascii) : bool * list ascii :=
  match l with
  | "-"%char :: r => (true, r)
  | "+"%char :: r => (false, r)
  | _ => (false, l)
  end.

(** The exponent group (optional sign, one digit or more) and the end of
    the text. *)
Definition parse_exp (l : list ascii) : option Z :=
  let '(neg, r) := split_sign l in
  let '(d, r') := span_digits r in
  match d, r' with
  | _ :: _, [] => Some (signed neg (int_of_chars d))
  | _, _ => None
  end.

Definition parse_number (s : bool) (l : list ascii) : option Decimal :=
  let '(ip, r1) := span_digits l in
  let '(fp, r2) :=
    match r1 with
    | "."%char :: r => span_digits r
    | _ => ([], r1)
    end in
  match ip, fp with
  | [], [] => None
  | _, _ =>
      let c := int_of_chars (ip ++ fp) in
      let k := Z.of_nat (length fp) in
      match r2 with
      | [] => Some (Fin s c (- k))
      | "e"%char :: r3 =>
          match parse_exp r3 with
          | Some x => Some (Fin s c (x - k))
          | None => None
          end
      | _ => None
      end
  end.

Definition parse_nan (s sg : bool) (l : list ascii) : option Decimal :=
  let '(d, r) := span_digits l in
  match r with
  | [] => Some (NaN s sg (int_of_chars d))
  | _ => None
  end.

Definition parse_special (s : bool) (l : list ascii) : option Decimal :=
  match l with
  | "i" :: "n" :: "f" :: [] => Some (Inf s)
  | "i" :: "n" :: "f" :: "i" :: "n" :: "i" :: "t" :: "y" :: [] => Some (Inf s)
  | "n" :: "a" :: "n" :: r => parse_nan s false r
  | "s" :: "n" :: "a" :: "n" :: r => parse_nan s true r
  | _ => None
  end%char.

Definition of_chars (t : list ascii) : result Decimal :=
  let l := map lower (List.filter (fun c => negb (is_underscore c)) (strip t)) in
  let '(s, r) := split_sign l in
  match parse_number s r with
  | Some d => Ok d
  | None =>
      match parse_special s r with
      | Some d => Ok d
      | None => Raise InvalidOperation
      end
  end.

Definition of_string (t : string) : result Decimal :=
  of_chars (list_ascii_of_string t).

(** *** str(d): Decimal.__str__ *)

Definition sign_chars (s : bool) : list ascii :=
  if s then ["-"%char] else [].

(** "%+d" % n *)
Definition plus_d (n : Z) : list ascii :=
  (if n <? 0 then "-"%char else "+"%char) :: digit_chars (Z.abs_N n).

Definition to_chars (d : Decimal) : list ascii :=
  match d with
  | Inf s => sign_chars s ++ list_ascii_of_string "Infinity"
  | NaN s sg p =>
      sign_chars s ++ list_ascii_of_string (if sg then "sNaN" else "NaN")
        ++ (if (p =? 0)%N then [] else digit_chars p)
  | Fin s c e =>
      let ds := digit_chars c in
      let len := Z.of_nat (length ds) in
      let leftdigits := e + len in
      let dotplace := if (e <=? 0) && (-6 <? leftdigits) then leftdigits else 1 in
      let intpart :=
        if dotplace <=? 0 then ["0"%char]
        else if len <=? dotplace
             then ds ++ repeat "0"%char (Z.to_nat (dotplace - len))
             else take (Z.to_nat dotplace) ds in
      let fracpart :=
        if dotplace <=? 0
        then "."%char :: repeat "0"%char (Z.to_nat (- dotplace)) ++ ds
        else if len <=? dotplace then []
             else "."%char :: drop (Z.to_nat dotplace) ds in
      let exp :=
        if leftdigits =? dotplace then []
        else "E"%char :: plus_d (leftdigits - dotplace) in
      sign_chars s ++ intpart ++ fracpart ++ exp
  end.

Definition to_string (d : Decimal) : string :=
  string_of_list_ascii (to_chars d).

End Dec.

Import Dec.
Local Open Scope string_scope.
Local Open Scope list_scope.
Local Open Scope Z_scope.

(** ** parse_decimal *)

(** text.replace(',', '.') *)
Fixpoint replace_comma (t : string) : string :=
  match t with
  | EmptyString => EmptyString
  | String c r =>
      String (if Ascii.eqb c ","%char then "."%char else c) (replace_comma r)
  end.

(** A message may carry no text (message.text is None); then
    text.replace raises inside the try block.  Every exception becomes
    ValueError. *)
Definition parse_decimal (text : option string) : result Decimal :=
  match text with
  | None => Raise ValueError
  | Some t =>
      match Dec.of_string (replace_comma t) with
      | Ok d => Ok d
      | Raise _ => Raise ValueError
      end
  end.

(** ** SettingsManager *)

Abbreviation Settings := (gmap string Decimal).

(** The directory /app/data: for each user id the JSON object stored in
    user_settings_<id>.json, a dictionary from keys to strings. *)
Abbreviation Files := (gmap Z (gmap string string)).

Definition save_settings (user_id : Z) (settings : Settings) (fs : Files) : Files :=
  <[user_id := Dec.to_string <$> settings]> fs.

Definition is_ok {A} (r : result A) : bool :=
  match r with Ok _ => true | Raise _ => false end.

Definition result_to_option {A} (r : result A) : option A :=
  match r with Ok a => Some a | Raise _ => None end.

(** The dictionary comprehension {k: Decimal(v) ...}: it raises
    InvalidOperation when some value is not a Decimal literal. *)
Definition load_dict (f : gmap string string) : result Settings :=
  if decide (map_Forall (fun _ v => is_ok (Dec.of_string v) = true) f)
  then Ok (omap (fun v => result_to_option (Dec.of_string v)) f)
  else Raise InvalidOperation.

Definition load_settings (user_id : Z) (fs : Files) : result (option Settings) :=
  match fs !! user_id with
  | None => Ok None
  | Some f => d ← load_dict f; Ok (Some d)
  end.

(** Truth value of an Optional[Dict]: None and the empty dict are false. *)
Definition settings_present (o : option Settings) : bool :=
  match o with
  | Some m => negb (bool_decide (m = ∅))
  | None => false
  end.

(** ** fetch_eur_rate *)

Inductive Source : Type := CBR | CBR_JSON | GoogleFinance.

(** One Valute element of the XML feed: [None] is a missing child element,
    [Some None] an element without text. *)
Record Valute : Type := {
  CharCode : option (option string);
  Value : option (option string)
}.

(** What a GET returns: a failure of the request, or a status and the
    parsed body.  For the XML feed the body is the list of Valute elements
    ([None]: not well-formed); for the JSON mirror it is
    str(data['Valute']['EUR']['Value']) ([None]: not JSON or no such
    path); for the HTML page it is the data-last-price attribute of the first
    div that has one ([None]: no such div). *)
Inductive Response (B : Type) : Type :=
| NetError
| Http (status : Z) (body : B).
Arguments NetError {B}.
Arguments Http {B} status body.

(** What the outside answers while one message is handled: the three rate
    sources, and the username of the bot as getMe reported it.  aiogram
    asks getMe once, when polling starts, and keeps the answer, so in a run
    of the program the username is the same for every message. *)
Record Net : Type := {
  cbr : Response (option (list Valute));
  cbr_json : Response (option string);
  google : Response (option string);
  bot_username : option string
}.

Inductive Event : Type :=
| HttpGet (s : Source)
| LogRate (s : Source) (r : Decimal)
| LogSourceError (s : Source)
| LogLastKnown (r : Decimal)
| LogNoRate.

(** The loop over root.findall('.//Valute'). *)
Fixpoint find_eur (vs : list Valute) : result (option Decimal) :=
  match vs with
  | [] => Ok None
  | v :: r =>
      match CharCode v with
      | None => Raise AttributeError
      | Some t =>
          if bool_decide (t = Some "EUR") then
            match Value v with
            | Some (Some txt) =>
                d ← Dec.of_string (replace_comma txt); Ok (Some d)
            | _ => Raise AttributeError
            end
          else find_eur r
      end
  end.

(** The body of each try block: [Ok (Some r)] returns r, [Ok None] falls
    through without an exception, [Raise _] goes to the except clause. *)
Definition try_cbr (n : Net) : result (option Decimal) :=
  match cbr n with
  | NetError => Raise OtherError
  | Http status body =>
      if status =? 200 then
        match body with
        | None => Raise OtherError
        | Some vs => find_eur vs
        end
      else Ok None
  end.

Definition try_cbr_json (n : Net) : result (option Decimal) :=
  match cbr_json n with
  | NetError => Raise OtherError
  | Http status body =>
      if status =? 200 then
        match body with
        | None => Raise OtherError
        | Some v => d ← Dec.of_string v; Ok (Some d)
        end
      else Ok None
  end.

Definition try_google (n : Net) : result (option Decimal) :=
  match google n with
  | NetError => Raise OtherError
  | Http status body =>
      if status =? 200 then
        match body with
        | None => Ok None
        | Some v => d ← Dec.of_string v; Ok (Some d)
        end
      else Ok None
  end.

Definition try_source (s : Source) : Net -> result (option Decimal) :=
  match s with
  | CBR => try_cbr
  | CBR_JSON => try_cbr_json
  | GoogleFinance => try_google
  end.

(** The state of one call: self.last_eur_rate and the events so far. *)
Record Fetch : Type := {
  returned : option Decimal;
  last_after : option Decimal;
  events : list Event
}.

(** The three try blocks in order, then the cached value. *)
Fixpoint fetch_from (srcs : list Source) (n : Net) (last : option Decimal)
    (ev : list Event) : Fetch :=
  match srcs with
  | s :: rest =>
      match try_source s n with
      | Ok (Some rate) =>
          {| returned := Some rate; last_after := Some rate;
             events := ev ++ [HttpGet s; LogRate s rate] |}
      | Ok None => fetch_from rest n last (ev ++ [HttpGet s])
      | Raise _ => fetch_from rest n last (ev ++ [HttpGet s; LogSourceError s])
      end
  | [] =>
      match last with
      | Some r =>
          if truthy r then
            {| returned := Some r; last_after := last;
               events := ev ++ [LogLastKnown r] |}
          else {| returned := None; last_after := last;
                  events := ev ++ [LogNoRate] |}
      | None => {| returned := None; last_after := last;
                   events := ev ++ [LogNoRate] |}
      end
  end.

Definition fetch_eur_rate (n : Net) (last : option Decimal) : Fetch :=
  fetch_from [CBR; CBR_JSON; GoogleFinance] n last [].

(** ** The finite-state machine *)

Inductive DeliveryStates : Type :=
| setup_cny_rate
| setup_weight_tariff
| setup_volume_coefficient
| setup_photo_report
| setup_duty_free_threshold
| manual_eur_rate
| calc_length
| calc_width
| calc_height
| calc_weight
| calc_price_cny
| calc_delivery_ru.

#[global] Instance DeliveryStates_eq_dec : EqDecision DeliveryStates.
Proof. solve_decision. Defined.

(** An FSMContext of MemoryStorage: the current state and the data dict. *)
Record FSMContext : Type := {
  fsm_state : option DeliveryStates;
  fsm_data : gmap string Decimal
}.

Definition empty_ctx : FSMContext := {| fsm_state := None; fsm_data := ∅ |}.

(** The values computed by process_calculation. *)
Record Breakdown : Type := {
  b_eur_rate : Decimal;
  b_volume_weight : Decimal;
  b_volume_coefficient : Decimal;
  b_delivery_cost : Decimal;
  b_duty : Decimal;
  b_total_cost : Decimal;
  b_cost_20_percent : Decimal;
  b_cost_30_percent : Decimal
}.

(** The messages the bot sends, by their text in the source. *)
Inductive Reply : Type :=
| WelcomeMenu                      (* welcome, main keyboard *)
| WelcomeSetup                     (* welcome, let us set the bot up *)
| UpdateSettingsIntro              (* let us update the settings *)
| Prompt (st : DeliveryStates)     (* the question of state [st] *)
| InvalidPositive                  (* please enter a correct positive number *)
| InvalidNonNegative               (* please enter a correct non-negative number *)
| SettingsInfo (s : Settings)      (* the current settings *)
| SettingsUpdated                  (* settings updated, main keyboard *)
| SettingsNotFound                 (* settings not found, set the bot up again *)
| AskManualRate                    (* could not get the rate, enter it *)
| CalcResult (settings data : Settings) (b : Breakdown)
| CalcFailed.                      (* an error occurred, try again *)

(** The process: the settings files, self.last_eur_rate, the FSM storage
    and what was logged and requested so far. *)
Record World : Type := {
  files : Files;
  last_eur_rate : option Decimal;
  storage : gmap Z FSMContext;
  trace : list Event
}.

Definition ctx_of (uid : Z) (w : World) : FSMContext :=
  default empty_ctx (storage w !! uid).

Definition with_ctx (uid : Z) (c : FSMContext) (w : World) : World :=
  {| files := files w; last_eur_rate := last_eur_rate w;
     storage := <[uid := c]> (storage w); trace := trace w |}.

(** state.set_state *)
Definition set_state (uid : Z) (st : DeliveryStates) (w : World) : World :=
  with_ctx uid {| fsm_state := Some st; fsm_data := fsm_data (ctx_of uid w) |} w.

(** state.update_data(key=value) *)
Definition update_data (uid : Z) (key : string) (v : Decimal) (w : World) : World :=
  with_ctx uid {| fsm_state := fsm_state (ctx_of uid w);
                  fsm_data := <[key := v]> (fsm_data (ctx_of uid w)) |} w.

(** state.clear() *)
Definition clear (uid : Z) (w : World) : World :=
  with_ctx uid empty_ctx w.

Definition set_files (fs : Files) (w : World) : World :=
  {| files := fs; last_eur_rate := last_eur_rate w;
     storage := storage w; trace := trace w |}.

Definition set_last_eur_rate (r : option Decimal) (w : World) : World :=
  {| files := files w; last_eur_rate := r;
     storage := storage w; trace := trace w |}.

Definition add_trace (ev : list Event) (w : World) : World :=
  {| files := files w; last_eur_rate := last_eur_rate w;
     storage := storage w; trace := trace w ++ ev |}.

(** What handling one message does: the new process state, the replies
    sent, and the exception that left the handler, if any. *)
Record Outcome : Type := {
  world : World;
  replies : list Reply;
  uncaught : option exn
}.

Definition done_ (w : World) (rs : list Reply) : Outcome :=
  {| world := w; replies := rs; uncaught := None |}.

Definition zero : Decimal := Fin false 0 0.

(** parse_decimal followed by the range check of a handler:
    [strict] is the check [v <= 0], otherwise [v < 0]. *)
Definition checked_input (strict : bool) (text : option string) : result Decimal :=
  v ← parse_decimal text;
  bad ← (if strict then Dec.le v zero else Dec.lt v zero);
  if (bad : bool) then Raise ValueError else Ok v.

(** The common shape of the numeric handlers: [except ValueError] answers
    and stays; any other exception leaves the handler. *)
Definition numeric_handler (strict : bool) (text : option string) (w : World)
    (on_value : Decimal -> Outcome) : Outcome :=
  match checked_input strict text with
  | Ok v => on_value v
  | Raise ValueError =>
      done_ w [if strict then InvalidPositive else InvalidNonNegative]
  | Raise e => {| world := w; replies := []; uncaught := Some e |}
  end.

Definition store_and_advance (uid : Z) (key : string) (next : DeliveryStates)
    (w : World) (v : Decimal) : Outcome :=
  done_ (set_state uid next (update_data uid key v w)) [Prompt next].

(** ** process_calculation *)

Definition getitem (m : gmap string Decimal) (k : string) : result Decimal :=
  match m !! k with
  | Some v => Ok v
  | None => Raise KeyError
  end.

(** The literals Decimal('167'), Decimal('0.15'), Decimal('500'),
    Decimal('1.05'), Decimal('1.2') and Decimal('1.3'). *)
Definition d167 : Decimal := Fin false 167 0.
Definition d0_15 : Decimal := Fin false 15 (-2).
Definition d500 : Decimal := Fin false 500 0.
Definition d1_05 : Decimal := Fin false 105 (-2).
Definition d1_2 : Decimal := Fin false 12 (-1).
Definition d1_3 : Decimal := Fin false 13 (-1).

(** Lines 408-441: the arithmetic of the final calculation, in the order
    Python evaluates it. *)
Definition compute (data settings : Settings) (eur_rate : Decimal) : result Breakdown :=
  length ← getitem data "length";
  l ← Dec.div length (of_int 100);
  width ← getitem data "width";
  w ← Dec.div width (of_int 100);
  lw ← Dec.mul l w;
  height ← getitem data "height";
  h ← Dec.div height (of_int 100);
  volume ← Dec.mul lw h;
  volume_weight ← Dec.mul volume d167;
  weight ← getitem data "weight";
  heavier ← Dec.gt volume_weight weight;
  volume_coefficient ←
    (if (heavier : bool) then
       weight ← getitem data "weight";
       excess ← Dec.sub volume_weight weight;
       rate ← getitem settings "volume_coefficient";
       Dec.mul excess rate
     else Ok zero);
  weight ← getitem data "weight";
  weight_tariff ← getitem settings "weight_tariff";
  by_weight ← Dec.mul weight weight_tariff;
  delivery_cost ← Dec.add by_weight volume_coefficient;
  price_cny ← getitem data "price_cny";
  cny_rate ← getitem settings "cny_rate";
  price_rub ← Dec.mul price_cny cny_rate;
  price_eur ← Dec.div price_rub eur_rate;
  threshold ← getitem settings "duty_free_threshold";
  dutiable ← Dec.gt price_eur threshold;
  duty ←
    (if (dutiable : bool) then
       threshold ← getitem settings "duty_free_threshold";
       duty_excess ← Dec.sub price_eur threshold;
       part ← Dec.mul duty_excess d0_15;
       in_rub ← Dec.mul part eur_rate;
       base_duty ← Dec.add in_rub d500;
       Dec.mul base_duty d1_05
     else Ok zero);
  price_cny ← getitem data "price_cny";
  cny_rate ← getitem settings "cny_rate";
  price_rub ← Dec.mul price_cny cny_rate;
  t1 ← Dec.add price_rub delivery_cost;
  delivery_ru ← getitem data "delivery_ru";
  t2 ← Dec.add t1 delivery_ru;
  t3 ← Dec.add t2 duty;
  photo_report ← getitem settings "photo_report";
  total_cost ← Dec.add t3 photo_report;
  cost_20_percent ← Dec.mul total_cost d1_2;
  cost_30_percent ← Dec.mul total_cost d1_3;
  Ok {| b_eur_rate := eur_rate;
        b_volume_weight := volume_weight;
        b_volume_coefficient := volume_coefficient;
        b_delivery_cost := delivery_cost;
        b_duty := duty;
        b_total_cost := total_cost;
        b_cost_20_percent := cost_20_percent;
        b_cost_30_percent := cost_30_percent |}.

(** The f-string of the result reads every settings key, also
    'volume_coefficient', which the arithmetic reads only for a bulky
    parcel. *)
Definition render (data settings : Settings) (b : Breakdown) : result Reply :=
  _ ← getitem settings "cny_rate";
  _ ← getitem settings "weight_tariff";
  _ ← getitem settings "volume_coefficient";
  _ ← getitem settings "photo_report";
  _ ← getitem settings "duty_free_threshold";
  Ok (CalcResult settings data b).

(** self.fetch_eur_rate() run inside the process. *)
Definition run_fetch (n : Net) (w : World) : option Decimal * World :=
  let f := fetch_eur_rate n (last_eur_rate w) in
  (returned f, add_trace (events f) (set_last_eur_rate (last_after f) w)).

(** [if not eur_rate]: None and a zero Decimal are false. *)
Definition usable_rate (r : option Decimal) : option Decimal :=
  match r with
  | Some d => if truthy d then Some d else None
  | None => None
  end.

(** The except clause of process_calculation. *)
Definition calculation_failed (uid : Z) (w : World) : Outcome :=
  done_ (clear uid w) [CalcFailed].

Definition process_calculation (n : Net) (uid : Z) (w : World) : Outcome :=
  let data := fsm_data (ctx_of uid w) in
  match load_settings uid (files w) with
  | Raise _ => calculation_failed uid w
  | Ok settings =>
      match settings with
      | Some st =>
          if settings_present settings then
            let '(rate, w1) := run_fetch n w in
            match usable_rate rate with
            | None => done_ (set_state uid manual_eur_rate w1) [AskManualRate]
            | Some eur_rate =>
                match b ← compute data st eur_rate; render data st b with
                | Ok r => done_ (clear uid w1) [r]
                | Raise _ => calculation_failed uid w1
                end
            end
          else done_ w [SettingsNotFound]
      | None => done_ w [SettingsNotFound]
      end
  end.

(** ** The handlers *)

Definition btn_calculate : string := "📊 Произвести расчет".
Definition btn_settings : string := "⚙️ Изменить настройки".
Definition btn_restart : string := "🔄 Перезапустить бот".

(** *** The filter Command(name)

    aiogram's Command filter takes the first word of the text as
    text.split(maxsplit=1) gives it, so after leading white space and up to
    the next white space; the word has to be '/' followed by the name and,
    optionally, by '@' and a mention.  A mention that is not empty has to be
    the username of the bot, both in lower case, when the bot has a
    username.  Text is UTF-8: the white space of str.split is listed with
    its encodings, and of the characters outside ASCII only the Kelvin sign
    has a lower case inside ASCII (usernames are ASCII). *)

(** U+0085 and U+00A0. *)
Definition white2 (a b : ascii) : bool :=
  (N_of_ascii a =? 194)%N && ((N_of_ascii b =? 133) || (N_of_ascii b =? 160))%N.

(** U+1680, U+2000 to U+200A, U+2028, U+2029, U+202F, U+205F and U+3000. *)
Definition white3 (a b c : ascii) : bool :=
  let '(x, y, z) := (N_of_ascii a, N_of_ascii b, N_of_ascii c) in
  ((x =? 225) && (y =? 154) && (z =? 128)
   || (x =? 226) && (y =? 128)
      && ((128 <=? z) && (z <=? 138) || (z =? 168) || (z =? 169) || (z =? 175))
   || (x =? 226) && (y =? 129) && (z =? 159)
   || (x =? 227) && (y =? 128) && (z =? 128))%N.

(** The text starts with a white space character of str.split. *)
Definition starts_white (l : list ascii) : bool :=
  match l with
  | a :: r =>
      is_space a ||
      match r with
      | b :: r' =>
          white2 a b || match r' with c :: _ => white3 a b c | [] => false end
      | [] => false
      end
  | [] => false
  end.

Fixpoint lstrip_white (l : list ascii) : list ascii :=
  match l with
  | [] => []
  | a :: r1 =>
      if is_space a then lstrip_white r1
      else
        match r1 with
        | b :: r2 =>
            if white2 a b then lstrip_white r2
            else
              match r2 with
              | c :: r3 => if white3 a b c then lstrip_white r3 else l
              | [] => l
              end
        | [] => l
        end
  end.

(** The text up to the first white space character. *)
Fixpoint until_white (l : list ascii) : list ascii :=
  match l with
  | [] => []
  | a :: r => if starts_white l then [] else a :: until_white r
  end.

(** text.split(maxsplit=1)[0], empty when there is no word. *)
Definition first_word (text : string) : list ascii :=
  until_white (lstrip_white (list_ascii_of_string text)).

(** word.partition("@"): the parts before and after the first '@'. *)
Fixpoint partition_at (l : list ascii) : list ascii * list ascii :=
  match l with
  | [] => ([], [])
  | a :: r =>
      if Ascii.eqb a "@" then ([], r)
      else let '(c, m) := partition_at r in (a :: c, m)
  end.

(** str.lower(), as far as the result can be ASCII: the letters A to Z and
    the Kelvin sign U+212A. *)
Fixpoint lower_text (l : list ascii) : list ascii :=
  match l with
  | [] => []
  | a :: r1 =>
      match r1 with
      | b :: c :: r3 =>
          if ((N_of_ascii a =? 226) && (N_of_ascii b =? 132)
              && (N_of_ascii c =? 170))%N
          then "k"%char :: lower_text r3
          else lower a :: lower_text r1
      | _ => lower a :: lower_text r1
      end
  end.

(** validate_mention *)
Definition mention_ok (me : option string) (mention : list ascii) : bool :=
  match mention, me with
  | [], _ => true
  | _, None => true
  | _, Some u =>
      bool_decide (u = "")
      || bool_decide (lower_text mention = lower_text (list_ascii_of_string u))
  end.

Definition is_command (me : option string) (name : string) (text : string) : bool :=
  match first_word text with
  | [] => false
  | prefix :: rest =>
      let '(command, mention) := partition_at rest in
      Ascii.eqb prefix "/" && mention_ok me mention
      && bool_decide (command = list_ascii_of_string name)
  end.

Definition start_command (uid : Z) (w : World) : Outcome :=
  match load_settings uid (files w) with
  | Raise e => {| world := w; replies := []; uncaught := Some e |}
  | Ok user_settings =>
      if settings_present user_settings then done_ w [WelcomeMenu]
      else done_ (set_state uid setup_cny_rate w)
                 [WelcomeSetup; Prompt setup_cny_rate]
  end.

Definition restart_command (uid : Z) (w : World) : Outcome :=
  start_command uid (clear uid w).

Definition restart_button (uid : Z) (w : World) : Outcome :=
  restart_command uid w.

Definition settings_menu (uid : Z) (w : World) : Outcome :=
  done_ (set_state uid setup_cny_rate w)
        [UpdateSettingsIntro; Prompt setup_cny_rate].

Definition process_cny_rate (uid : Z) (text : option string) (w : World) : Outcome :=
  numeric_handler true text w
    (store_and_advance uid "cny_rate" setup_weight_tariff w).

Definition process_weight_tariff (uid : Z) (text : option string) (w : World) : Outcome :=
  numeric_handler true text w
    (store_and_advance uid "weight_tariff" setup_volume_coefficient w).

Definition process_volume_coefficient (uid : Z) (text : option string) (w : World) : Outcome :=
  numeric_handler true text w
    (store_and_advance uid "volume_coefficient" setup_photo_report w).

Definition process_photo_report (uid : Z) (text : option string) (w : World) : Outcome :=
  numeric_handler false text w
    (store_and_advance uid "photo_report" setup_duty_free_threshold w).

(** The settings dict built from the collected data and the threshold. *)
Definition assemble_settings (data : Settings) (threshold : Decimal) : result Settings :=
  cny_rate ← getitem data "cny_rate";
  weight_tariff ← getitem data "weight_tariff";
  volume_coefficient ← getitem data "volume_coefficient";
  photo_report ← getitem data "photo_report";
  Ok (<["cny_rate" := cny_rate]>
      (<["weight_tariff" := weight_tariff]>
       (<["volume_coefficient" := volume_coefficient]>
        (<["photo_report" := photo_report]>
         (<["duty_free_threshold" := threshold]> ∅))))).

Definition process_duty_free_threshold (uid : Z) (text : option string) (w : World) : Outcome :=
  numeric_handler true text w (fun threshold =>
    match assemble_settings (fsm_data (ctx_of uid w)) threshold with
    | Raise e => {| world := w; replies := []; uncaught := Some e |}
    | Ok settings =>
        done_ (clear uid (set_files (save_settings uid settings (files w)) w))
              [SettingsInfo settings; SettingsUpdated]
    end).

Definition start_calculation (uid : Z) (w : World) : Outcome :=
  done_ (set_state uid calc_length w) [Prompt calc_length].

Definition process_length (uid : Z) (text : option string) (w : World) : Outcome :=
  numeric_handler true text w (store_and_advance uid "length" calc_width w).

Definition process_width (uid : Z) (text : option string) (w : World) : Outcome :=
  numeric_handler true text w (store_and_advance uid "width" calc_height w).

Definition process_height (uid : Z) (text : option string) (w : World) : Outcome :=
  numeric_handler true text w (store_and_advance uid "height" calc_weight w).

Definition process_weight (uid : Z) (text : option string) (w : World) : Outcome :=
  numeric_handler true text w (store_and_advance uid "weight" calc_price_cny w).

Definition process_price_cny (uid : Z) (text : option string) (w : World) : Outcome :=
  numeric_handler true text w (store_and_advance uid "price_cny" calc_delivery_ru w).

Definition process_delivery_ru (n : Net) (uid : Z) (text : option string) (w : World) : Outcome :=
  numeric_handler false text w (fun delivery_ru =>
    process_calculation n uid (update_data uid "delivery_ru" delivery_ru w)).

Definition process_manual_eur_rate (n : Net) (uid : Z) (text : option string) (w : World) : Outcome :=
  numeric_handler true text w (fun eur_rate =>
    process_calculation n uid (set_last_eur_rate (Some eur_rate) w)).

(** The handler registered for a state. *)
Definition state_handler (n : Net) (st : DeliveryStates)
    : Z -> option string -> World -> Outcome :=
  match st with
  | setup_cny_rate => process_cny_rate
  | setup_weight_tariff => process_weight_tariff
  | setup_volume_coefficient => process_volume_coefficient
  | setup_photo_report => process_photo_report
  | setup_duty_free_threshold => process_duty_free_threshold
  | manual_eur_rate => process_manual_eur_rate n
  | calc_length => process_length
  | calc_width => process_width
  | calc_height => process_height
  | calc_weight => process_weight
  | calc_price_cny => process_price_cny
  | calc_delivery_ru => process_delivery_ru n
  end.

Definition is_setup_state (st : DeliveryStates) : bool :=
  match st with
  | setup_cny_rate | setup_weight_tariff | setup_volume_coefficient
  | setup_photo_report | setup_duty_free_threshold => true
  | _ => false
  end.

Definition text_is (label : string) (text : option string) : bool :=
  bool_decide (text = Some label).

Definition command_is (me : option string) (name : string) (text : option string)
    : bool :=
  match text with
  | Some t => is_command me name t
  | None => false
  end.

(** [message.text or message.caption], the text that the Command filter
    reads. *)
Definition text_or_caption (text caption : option string) : option string :=
  match text with
  | Some t => if bool_decide (t = "") then caption else Some t
  | None => caption
  end.

(** The dispatcher: the first registered handler whose filter accepts the
    message runs, in the order of register_handlers; [n] is what the
    outside answers while this message is handled.  The Command filters read
    the text or, without text, the caption; the other filters and the
    handlers read the text. *)
Definition dispatch_message (n : Net) (uid : Z) (text caption : option string)
    (w : World) : Outcome :=
  let st := fsm_state (ctx_of uid w) in
  let me := bot_username n in
  if command_is me "start" (text_or_caption text caption) then start_command uid w
  else if command_is me "restart" (text_or_caption text caption)
  then restart_command uid w
  else if text_is btn_restart text then restart_button uid w
  else if text_is btn_settings text then settings_menu uid w
  else
    match st with
    | Some s =>
        if is_setup_state s then state_handler n s uid text w
        else if text_is btn_calculate text then start_calculation uid w
        else state_handler n s uid text w
    | None =>
        if text_is btn_calculate text then start_calculation uid w
        else done_ w []
    end.

(** A message without caption: a text message, or one with neither. *)
Definition dispatch (n : Net) (uid : Z) (text : option string) (w : World) : Outcome :=
  dispatch_message n uid text None w.

Definition initial_world : World :=
  {| files := ∅; last_eur_rate := None; storage := ∅; trace := [] |}.


(** * Properties *)

(** ** Decimal digits *)

Module DigitFacts.

Definition step (a d : N) : N := (10 * a + d)%N.

Lemma digits_aux_fold (f : nat) :
  forall (n : N) (acc : list N),
    (n < 2 ^ N.of_nat f)%N ->
    fold_left step (digits_aux f n acc) 0%N = fold_left step acc n.
Proof.
  induction f as [|f IH]; intros n acc Hn.
  - simpl in *. assert (n = 0%N) by lia. now subst.
  - cbn [digits_aux]. destruct (n <? 10)%N eqn:Hlt.
    + cbn [fold_left]. unfold step at 2. now rewrite N.mul_0_r, N.add_0_l.
    + rewrite IH.
      * cbn [fold_left]. unfold step at 2.
        now rewrite <- (N.div_mod' n 10).
      * rewrite Nat2N.inj_succ, N.pow_succ_r' in Hn.
        apply N.Div0.div_lt_upper_bound.
        set (P := (2 ^ N.of_nat f)%N) in *. lia.
Qed.

Lemma size_fuel (n : N) : (n < 2 ^ N.of_nat (S (N.to_nat (N.size n))))%N.
Proof.
  rewrite Nat2N.inj_succ, N2Nat.id, N.pow_succ_r'.
  pose proof (N.size_gt n). set (P := (2 ^ N.size n)%N) in *. lia.
Qed.

Lemma undigits_digits (n : N) : undigits (digits n) = n.
Proof.
  unfold undigits, digits.
  change (fun a d => (10 * a + d)%N) with step.
  rewrite digits_aux_fold by apply size_fuel. reflexivity.
Qed.

Lemma digits_aux_small (f : nat) :
  forall (n : N) (acc : list N),
    Forall (fun d => (d < 10)%N) acc ->
    Forall (fun d => (d < 10)%N) (digits_aux f n acc).
Proof.
  induction f as [|f IH]; intros n acc Hacc; cbn [digits_aux]; [exact Hacc|].
  destruct (n <? 10)%N eqn:Hlt.
  - constructor; [now apply N.ltb_lt|exact Hacc].
  - apply IH. constructor; [|exact Hacc]. apply N.mod_lt. lia.
Qed.

Lemma digits_small (n : N) : Forall (fun d => (d < 10)%N) (digits n).
Proof. apply digits_aux_small. constructor. Qed.

(** The number of digits produced, and what it says about the number. *)
Lemma digits_aux_length (f : nat) :
  forall (n : N) (acc : list N),
    (n < 2 ^ N.of_nat f)%N -> (0 < n)%N ->
    exists k : nat,
      length (digits_aux f n acc) = (S k + length acc)%nat /\
      (10 ^ N.of_nat k <= n < 10 ^ N.of_nat (S k))%N.
Proof.
  induction f as [|f IH]; intros n acc Hn Hpos.
  - simpl in Hn. lia.
  - cbn [digits_aux]. destruct (n <? 10)%N eqn:Hlt.
    + exists 0%nat. apply N.ltb_lt in Hlt. simpl. split; [reflexivity|lia].
    + apply N.ltb_ge in Hlt.
      destruct (IH (n / 10)%N ((n mod 10)%N :: acc)) as (k & Hk & Hlo & Hhi).
      * rewrite Nat2N.inj_succ, N.pow_succ_r' in Hn.
        apply N.Div0.div_lt_upper_bound.
        set (P := (2 ^ N.of_nat f)%N) in *. lia.
      * apply N.div_str_pos. lia.
      * exists (S k). split.
        -- rewrite Hk. simpl. lia.
        -- rewrite !Nat2N.inj_succ, !N.pow_succ_r' in *.
           pose proof (N.div_mod' n 10) as Hdm.
           pose proof (N.mod_lt n 10 ltac:(lia)) as Hm.
           set (P := (10 ^ N.of_nat k)%N) in *.
           set (q := (n / 10)%N) in *. set (m := (n mod 10)%N) in *.
           split; lia.
Qed.

Lemma digits_length_pos (n : N) : (1 <= length (digits n))%nat.
Proof.
  destruct (N.eq_dec n 0%N) as [->|Hn]; [vm_compute; lia|].
  destruct (digits_aux_length _ n [] (size_fuel n) ltac:(lia)) as (k & Hk & _).
  unfold digits. rewrite Hk. lia.
Qed.

Lemma ndigits_pos (n : N) : 1 <= ndigits n.
Proof. unfold ndigits. pose proof (digits_length_pos n). lia. Qed.




End DigitFacts.

(** ** parse_decimal: the two separators *)

(** The same text written with ',' in place of every '.'. *)
Fixpoint with_comma (t : string) : string :=
  match t with
  | EmptyString => EmptyString
  | String c r =>
      String (if Ascii.eqb c "."%char then ","%char else c) (with_comma r)
  end.

Lemma replace_comma_with_comma (t : string) :
  replace_comma (with_comma t) = replace_comma t.
Proof.
  induction t as [|c r IH]; simpl; [reflexivity|].
  rewrite IH. f_equal.
  destruct (Ascii.eqb c ".") eqn:Hdot.
  - apply Ascii.eqb_eq in Hdot. subst c. reflexivity.
  - reflexivity.
Qed.

(** C8. A number written with ',' parses to the same Decimal as the same
    number written with '.', for every text (so for every valid decimal
    string), and "12,5" and "12.5" both give 12.5 exactly. *)
Theorem parse_decimal_separator :
  (forall t : string,
      parse_decimal (Some (with_comma t)) = parse_decimal (Some t)) /\
  parse_decimal (Some "12,5") = Ok (Fin false 125 (-1)) /\
  parse_decimal (Some "12.5") = Ok (Fin false 125 (-1)).
Proof.
  split; [|split; vm_compute; reflexivity].
  intros t. unfold parse_decimal. now rewrite replace_comma_with_comma.
Qed.

(** ** fetch_eur_rate *)

(** A source fails when its try block returns nothing: an exception, a
    status other than 200, or no EUR entry. *)
Definition source_fails (n : Net) (s : Source) : Prop :=
  forall r, try_source s n <> Ok (Some r).

(** The sources requested, in the order of the requests. *)
Fixpoint requests (ev : list Event) : list Source :=
  match ev with
  | HttpGet s :: r => s :: requests r
  | _ :: r => requests r
  | [] => []
  end.

Lemma requests_app (a b : list Event) :
  requests (a ++ b) = requests a ++ requests b.
Proof.
  induction a as [|e a IH]; simpl; [reflexivity|].
  destruct e; simpl; now rewrite IH.
Qed.

Lemma fetch_from_success (pre : list Source) :
  forall (s : Source) (post : list Source) (n : Net) (cached : option Decimal)
         (ev : list Event) (R : Decimal),
    Forall (source_fails n) pre ->
    try_source s n = Ok (Some R) ->
    let f := fetch_from (pre ++ s :: post) n cached ev in
    returned f = Some R /\ last_after f = Some R /\
    requests (events f) = requests ev ++ pre ++ [s] /\
    last (events f) = Some (LogRate s R).
Proof.
  induction pre as [|p pre IH]; intros s post n cached ev R Hpre Hs; simpl.
  - rewrite Hs. simpl. repeat split.
    + rewrite requests_app. reflexivity.
    + change (ev ++ [HttpGet s; LogRate s R])
        with (ev ++ [HttpGet s] ++ [LogRate s R]).
      rewrite app_assoc. apply last_snoc.
  - inversion Hpre as [|? ? Hp Hrest]; subst.
    destruct (try_source p n) as [[r|]|e] eqn:Hpn.
    + exfalso. exact (Hp r Hpn).
    + destruct (IH s post n cached (ev ++ [HttpGet p]) R Hrest Hs)
        as (H1 & H2 & H3 & H4).
      repeat split; try assumption.
      rewrite H3, requests_app. simpl. now rewrite <- app_assoc.
    + destruct (IH s post n cached (ev ++ [HttpGet p; LogSourceError p]) R Hrest Hs)
        as (H1 & H2 & H3 & H4).
      repeat split; try assumption.
      rewrite H3, requests_app. simpl. now rewrite <- app_assoc.
Qed.

(** C2. The sources are requested in the order CBR feed, JSON mirror,
    quote page; when the sources before [s] all fail and [s] answers [R],
    exactly those sources and [s] were requested, in that order, the call
    returns [R], logs it as the rate of source [s], and the last known rate
    becomes [R]. *)
Theorem fetch_eur_rate_priority (pre post : list Source) (s : Source)
    (n : Net) (cached : option Decimal) (R : Decimal) :
  [CBR; CBR_JSON; GoogleFinance] = pre ++ s :: post ->
  Forall (source_fails n) pre ->
  try_source s n = Ok (Some R) ->
  returned (fetch_eur_rate n cached) = Some R /\
  last_after (fetch_eur_rate n cached) = Some R /\
  requests (events (fetch_eur_rate n cached)) = pre ++ [s] /\
  last (events (fetch_eur_rate n cached)) = Some (LogRate s R).
Proof.
  intros Hsplit Hpre Hs. unfold fetch_eur_rate. rewrite Hsplit.
  exact (fetch_from_success pre s post n cached [] R Hpre Hs).
Qed.

Definition net_only_google : Net :=
  {| cbr := NetError;
     cbr_json := Http 503 None;
     google := Http 200 (Some "98.5");
     bot_username := Some "china_delivery_bot" |}.

Lemma fetch_eur_rate_priority_witness :
  returned (fetch_eur_rate net_only_google None) = Some (Fin false 985 (-1)) /\
  last_after (fetch_eur_rate net_only_google None) = Some (Fin false 985 (-1)) /\
  requests (events (fetch_eur_rate net_only_google None))
    = [CBR; CBR_JSON] ++ [GoogleFinance] /\
  last (events (fetch_eur_rate net_only_google None))
    = Some (LogRate GoogleFinance (Fin false 985 (-1))).
Proof.
  apply (fetch_eur_rate_priority [CBR; CBR_JSON] [] GoogleFinance).
  - reflexivity.
  - repeat constructor; intros r; vm_compute; discriminate.
  - vm_compute. reflexivity.
Defined.

(** What the code returns once no source answered. *)
Definition cached_result (cached : option Decimal) : option Decimal :=
  match cached with
  | Some r => if truthy r then Some r else None
  | None => None
  end.

Definition cached_event (cached : option Decimal) : Event :=
  match cached_result cached with
  | Some r => LogLastKnown r
  | None => LogNoRate
  end.

Lemma fetch_from_all_fail (srcs : list Source) :
  forall (n : Net) (cached : option Decimal) (ev : list Event),
    Forall (source_fails n) srcs ->
    let f := fetch_from srcs n cached ev in
    returned f = cached_result cached /\ last_after f = cached /\
    requests (events f) = requests ev ++ srcs /\
    last (events f) = Some (cached_event cached).
Proof.
  induction srcs as [|p srcs IH]; intros n cached ev Hall; simpl.
  - unfold cached_event, cached_result.
    destruct cached as [r|]; [destruct (truthy r)|]; simpl;
      rewrite requests_app, last_snoc; simpl; rewrite app_nil_r; auto.
  - inversion Hall as [|? ? Hp Hrest]; subst.
    destruct (try_source p n) as [[r|]|e] eqn:Hpn.
    + exfalso. exact (Hp r Hpn).
    + destruct (IH n cached (ev ++ [HttpGet p]) Hrest) as (H1 & H2 & H3 & H4).
      repeat split; try assumption.
      rewrite H3, requests_app. simpl. now rewrite <- app_assoc.
    + destruct (IH n cached (ev ++ [HttpGet p; LogSourceError p]) Hrest)
        as (H1 & H2 & H3 & H4).
      repeat split; try assumption.
      rewrite H3, requests_app. simpl. now rewrite <- app_assoc.
Qed.

Definition all_sources_fail (n : Net) : Prop :=
  Forall (source_fails n) [CBR; CBR_JSON; GoogleFinance].

(** C7 (as amended). When all three sources fail, the call returns the
    last known rate if there is one and it is not zero, logged as the last
    known rate, and returns None when there is none or it is zero; the last
    known rate is left as it was. *)
Theorem fetch_eur_rate_fallback (n : Net) (cached : option Decimal) :
  all_sources_fail n ->
  returned (fetch_eur_rate n cached) = cached_result cached /\
  last_after (fetch_eur_rate n cached) = cached /\
  last (events (fetch_eur_rate n cached)) = Some (cached_event cached).
Proof.
  intros Hall.
  destruct (fetch_from_all_fail [CBR; CBR_JSON; GoogleFinance] n cached [] Hall)
    as (H1 & H2 & _ & H4).
  auto.
Qed.

Definition net_down : Net :=
  {| cbr := NetError; cbr_json := Http 404 None; google := Http 200 None;
     bot_username := Some "china_delivery_bot" |}.

Lemma net_down_fails : all_sources_fail net_down.
Proof. repeat constructor; intros r; vm_compute; discriminate. Qed.

Lemma fetch_eur_rate_fallback_witness :
  returned (fetch_eur_rate net_down (Some (Fin false 95 (-2))))
    = Some (Fin false 95 (-2)) /\
  last_after (fetch_eur_rate net_down (Some (Fin false 95 (-2))))
    = Some (Fin false 95 (-2)) /\
  last (events (fetch_eur_rate net_down (Some (Fin false 95 (-2)))))
    = Some (LogLastKnown (Fin false 95 (-2))).
Proof.
  apply (fetch_eur_rate_fallback net_down (Some (Fin false 95 (-2)))).
  repeat constructor; intros r; vm_compute; discriminate.
Defined.

(** A feed that quotes the rate as 0. *)
Definition net_zero : Net :=
  {| cbr := Http 200 (Some [{| CharCode := Some (Some "EUR");
                               Value := Some (Some "0") |}]);
     cbr_json := NetError; google := NetError;
     bot_username := Some "china_delivery_bot" |}.

(** C7 as stated fails: after a successful resolution that returned 0 the
    last known rate exists, yet with all sources down the call returns
    None, not that value. *)
Lemma fetch_eur_rate_cached_zero :
  ~ (forall (first later : Net) (r : Decimal),
        returned (fetch_eur_rate first None) = Some r ->
        all_sources_fail later ->
        returned (fetch_eur_rate later (last_after (fetch_eur_rate first None)))
          = Some r).
Proof.
  intros H.
  specialize (H net_zero net_down zero eq_refl net_down_fails).
  vm_compute in H. discriminate H.
Qed.

(** ** No DivisionByZero without a zero divisor *)

Section NoDivisionByZero.

Definition safe {A : Type} (r : result A) : Prop := r <> Raise DivisionByZero.

Lemma safe_ok {A : Type} (a : A) : safe (Ok a).
Proof. discriminate. Qed.

Lemma safe_bind {A B : Type} (r : result A) (k : A -> result B) :
  safe r -> (forall a, safe (k a)) -> safe (r ≫= k).
Proof.
  intros Hr Hk. destruct r as [a|e]; simpl.
  - apply Hk.
  - intros H. apply Hr. inversion H. reflexivity.
Qed.

Lemma safe_fix (s : bool) (c : N) (e : Z) : safe (fix_ s c e).
Proof.
  unfold safe, fix_.
  repeat match goal with
         | |- context [if ?b then _ else _] => destruct b
         end; discriminate.
Qed.

Lemma safe_check_nans (a b : Decimal) (r : result Decimal) :
  check_nans a b = Some r -> safe r.
Proof.
  unfold check_nans.
  destruct a as [? ? ?|?|? [|] ?], b as [? ? ?|?|? [|] ?];
    intros H; inversion H; discriminate.
Qed.

Lemma safe_mul (a b : Decimal) : safe (Dec.mul a b).
Proof.
  unfold Dec.mul. destruct (check_nans a b) as [r|] eqn:Hn.
  - exact (safe_check_nans a b r Hn).
  - destruct a, b; try discriminate; try apply safe_fix;
      match goal with |- context [if ?c then _ else _] => destruct c end;
      discriminate.
Qed.

Lemma safe_add (a b : Decimal) : safe (Dec.add a b).
Proof.
  unfold Dec.add. destruct (check_nans a b) as [r|] eqn:Hn.
  - exact (safe_check_nans a b r Hn).
  - destruct a, b; try discriminate; try apply safe_fix.
    match goal with |- context [if ?c then _ else _] => destruct c end;
      discriminate.
Qed.

Lemma safe_sub (a b : Decimal) : safe (Dec.sub a b).
Proof.
  unfold Dec.sub. destruct (check_nans a b) as [r|] eqn:Hn.
  - exact (safe_check_nans a b r Hn).
  - apply safe_add.
Qed.

Lemma safe_compare (f : comparison -> bool) (a b : Decimal) :
  safe (compare_with f a b).
Proof. unfold compare_with. destruct (is_nan a || is_nan b); discriminate. Qed.

Lemma safe_getitem (m : Settings) (k : string) : safe (getitem m k).
Proof. unfold getitem. destruct (m !! k); discriminate. Qed.

(** Only a zero divisor raises DivisionByZero. *)
Lemma safe_div (a b : Decimal) : is_zero b = false -> safe (Dec.div a b).
Proof.
  intros Hb. unfold Dec.div. destruct (check_nans a b) as [r|] eqn:Hn.
  - exact (safe_check_nans a b r Hn).
  - destruct a as [s1 c1 e1|s1|], b as [s2 c2 e2|s2|]; try discriminate.
    simpl in Hb. rewrite Hb.
    destruct (c1 =? 0)%N; [apply safe_fix|].
    destruct (negb _); [apply safe_fix|].
    destruct (strip_zeros _ _ _ _). apply safe_fix.
Qed.

Lemma compute_safe (data settings : Settings) (eur_rate : Decimal) :
  is_zero eur_rate = false -> safe (compute data settings eur_rate).
Proof.
  intros Hrate. unfold compute.
  repeat first
    [ apply safe_ok
    | apply safe_getitem | apply safe_mul | apply safe_add | apply safe_sub
    | apply safe_compare
    | apply safe_div; [reflexivity || exact Hrate]
    | apply safe_bind; [|intros ?]
    | match goal with |- safe (if ?b then _ else _) => destruct b end ].
Qed.

End NoDivisionByZero.

Lemma usable_rate_nonzero (r : option Decimal) (d : Decimal) :
  usable_rate r = Some d -> is_zero d = false.
Proof.
  unfold usable_rate, truthy. destruct r as [x|]; [|discriminate].
  destruct (is_zero x) eqn:Hx; simpl; [discriminate|].
  intros H. inversion H. subst. exact Hx.
Qed.

(** A value that passed the check [v <= 0] is not zero. *)
Lemma checked_input_nonzero (text : option string) (v : Decimal) :
  checked_input true text = Ok v -> is_zero v = false.
Proof.
  unfold checked_input. destruct (parse_decimal text) as [d|e]; simpl; [|discriminate].
  unfold Dec.le, compare_with. destruct (is_nan d || is_nan zero); simpl; [discriminate|].
  destruct (cmp d zero) eqn:Hc; simpl; try discriminate.
  intros H. inversion H. subst v.
  destruct d as [s c e| |]; try reflexivity. simpl.
  destruct (c =? 0)%N eqn:Hz; [|reflexivity].
  apply N.eqb_eq in Hz. subst c. exfalso.
  unfold cmp, signed in Hc. simpl in Hc.
  destruct s; simpl in Hc; rewrite ?Z.mul_0_l in Hc; simpl in Hc;
    rewrite Z.compare_refl in Hc || idtac; discriminate.
Qed.

(** ** Worlds used in the examples *)

(** The parcel and the settings of the worked scenario. *)
Definition scenario_data : Settings :=
  <["length" := Fin false 50 0]>
  (<["width" := Fin false 40 0]>
   (<["height" := Fin false 30 0]>
    (<["weight" := Fin false 5 0]>
     (<["price_cny" := Fin false 1000 0]>
      (<["delivery_ru" := Fin false 300 0]> ∅))))).

Definition scenario_settings : Settings :=
  <["cny_rate" := Fin false 125 (-1)]>
  (<["weight_tariff" := Fin false 400 0]>
   (<["volume_coefficient" := Fin false 60 0]>
    (<["photo_report" := Fin false 200 0]>
     (<["duty_free_threshold" := Fin false 200 0]> ∅)))).

(** A process in which user [uid] is in state [st] with data [data]. *)
Definition world_at (uid : Z) (st : DeliveryStates) (data : Settings)
    (fs : Files) (cached : option Decimal) : World :=
  {| files := fs; last_eur_rate := cached;
     storage := {[ uid := {| fsm_state := Some st; fsm_data := data |} ]};
     trace := [] |}.

(** The sequence of messages of one user, each with the answers of the
    network while it is handled. *)
Fixpoint run (uid : Z) (msgs : list (Net * option string)) (w : World) : World :=
  match msgs with
  | [] => w
  | (n, text) :: rest => run uid rest (world (dispatch n uid text w))
  end.

(** The process states that messages can lead to, with or without
    caption, from any user. *)
Inductive reachable : World -> Prop :=
| reachable_initial : reachable initial_world
| reachable_step (w : World) (n : Net) (uid : Z) (text caption : option string) :
    reachable w -> reachable (world (dispatch_message n uid text caption w)).

Lemma reachable_run (uid : Z) (msgs : list (Net * option string)) :
  forall w, reachable w -> reachable (run uid msgs w).
Proof.
  induction msgs as [|[n text] rest IH]; intros w Hw; simpl.
  - exact Hw.
  - apply IH. exact (reachable_step w n uid text None Hw).
Qed.

(** No text is a command when there is no word in it. *)
Lemma command_is_no_caption (me : option string) (name : string)
    (text : option string) :
  command_is me name (text_or_caption text None) = command_is me name text.
Proof.
  destruct text as [t|]; [|reflexivity]. cbn [text_or_caption].
  destruct (bool_decide (t = "")) eqn:Ht; [|reflexivity].
  apply bool_decide_eq_true in Ht. subst t. reflexivity.
Qed.

(** The dispatcher on a message without caption. *)
Lemma dispatch_unfold (n : Net) (uid : Z) (text : option string) (w : World) :
  dispatch n uid text w =
  if command_is (bot_username n) "start" text then start_command uid w
  else if command_is (bot_username n) "restart" text then restart_command uid w
  else if text_is btn_restart text then restart_button uid w
  else if text_is btn_settings text then settings_menu uid w
  else
    match fsm_state (ctx_of uid w) with
    | Some s =>
        if is_setup_state s then state_handler n s uid text w
        else if text_is btn_calculate text then start_calculation uid w
        else state_handler n s uid text w
    | None =>
        if text_is btn_calculate text then start_calculation uid w
        else done_ w []
    end.
Proof.
  unfold dispatch, dispatch_message. now rewrite !command_is_no_caption.
Qed.

(** ** Settings and the calculation steps *)




Lemma numeric_handler_replies (strict : bool) (text : option string) (w : World)
    (on_value : Decimal -> Outcome) (r : Reply) :
  In r (replies (numeric_handler strict text w on_value)) ->
  (exists v, checked_input strict text = Ok v /\ In r (replies (on_value v))) \/
  r = InvalidPositive \/ r = InvalidNonNegative.
Proof.
  unfold numeric_handler.
  destruct (checked_input strict text) as [v|e].
  - intros H. left. exists v. auto.
  - destruct e; simpl; try tauto.
    destruct strict; intros [H|[]]; subst; auto.
Qed.


Lemma start_command_replies (uid : Z) (w : World) (r : Reply) :
  In r (replies (start_command uid w)) ->
  r = WelcomeMenu \/ r = WelcomeSetup \/ r = Prompt setup_cny_rate.
Proof.
  unfold start_command.
  destruct (load_settings uid (files w)) as [o|e]; simpl; [|tauto].
  destruct (settings_present o); simpl; intuition congruence.
Qed.




Definition net_rate_100 : Net :=
  {| cbr := Http 200 (Some [{| CharCode := Some (Some "USD");
                               Value := Some (Some "91,2") |};
                            {| CharCode := Some (Some "EUR");
                               Value := Some (Some "100") |}]);
     cbr_json := NetError; google := NetError;
     bot_username := Some "china_delivery_bot" |}.

Definition scenario_files : Files := save_settings 7 scenario_settings ∅.



(** ** The end of a calculation *)

(** The messages of a user who never set the bot up and enters a parcel. *)
Definition parcel_messages : list (Net * option string) :=
  [(net_down, Some btn_calculate); (net_down, Some "50"); (net_down, Some "40");
   (net_down, Some "30"); (net_down, Some "5"); (net_down, Some "1000")].

Definition world_before_last : World := run 7 parcel_messages initial_world.

(** C6, the failing case: for a user without settings the last step answers
    that the settings are missing but leaves the state calc_delivery_ru and
    all the collected data in place. *)
Theorem settings_missing_keeps_state :
  reachable world_before_last /\
  files world_before_last !! 7 = None /\
  replies (dispatch net_down 7 (Some "300") world_before_last)
    = [SettingsNotFound] /\
  fsm_state (ctx_of 7 (world (dispatch net_down 7 (Some "300") world_before_last)))
    = Some calc_delivery_ru /\
  fsm_data (ctx_of 7 (world (dispatch net_down 7 (Some "300") world_before_last)))
    = scenario_data.
Proof.
  split; [apply reachable_run; constructor|].
  repeat split; vm_compute; reflexivity.
Qed.

(** The other failure, an exception in the try block, does clear the
    state and answers with the failure message. *)
Lemma calculation_failed_clears (uid : Z) (w : World) :
  ctx_of uid (world (calculation_failed uid w)) = empty_ctx /\
  replies (calculation_failed uid w) = [CalcFailed].
Proof.
  split; [|reflexivity].
  unfold calculation_failed, clear, with_ctx, ctx_of. simpl.
  now rewrite lookup_insert_eq.
Qed.

Lemma process_calculation_fault (n : Net) (uid : Z) (w : World)
    (st : Settings) (eur_rate : Decimal) (e : exn) :
  load_settings uid (files w) = Ok (Some st) ->
  settings_present (Some st) = true ->
  usable_rate (fst (run_fetch n w)) = Some eur_rate ->
  compute (fsm_data (ctx_of uid w)) st eur_rate = Raise e ->
  process_calculation n uid w = calculation_failed uid (snd (run_fetch n w)).
Proof.
  intros Hl Hp Hu Hc. unfold process_calculation.
  rewrite Hl, Hp. destruct (run_fetch n w) as [rate w1]. simpl in *.
  rewrite Hu, Hc. reflexivity.
Qed.

(** ** Validation of the numeric inputs *)

(** An input rejected with ValueError is answered with the validation
    message and changes nothing. *)
Lemma numeric_handler_retry (strict : bool) (text : option string) (w : World)
    (on_value : Decimal -> Outcome) :
  checked_input strict text = Raise ValueError ->
  numeric_handler strict text w on_value
    = done_ w [if strict then InvalidPositive else InvalidNonNegative].
Proof. intros H. unfold numeric_handler. now rewrite H. Qed.

Definition world_calc_length : World :=
  run 7 [(net_down, Some btn_calculate)] initial_world.

(** C5, the failing cases: in calc_length the text "NaN" is not answered at
    all (the comparison raises InvalidOperation, which [except ValueError]
    does not catch), and the text "Infinity" is accepted as a length and
    moves the user to calc_width. *)
Theorem non_numbers_not_rejected :
  reachable world_calc_length /\
  fsm_state (ctx_of 7 world_calc_length) = Some calc_length /\
  replies (dispatch net_down 7 (Some "NaN") world_calc_length) = [] /\
  uncaught (dispatch net_down 7 (Some "NaN") world_calc_length)
    = Some InvalidOperation /\
  replies (dispatch net_down 7 (Some "Infinity") world_calc_length)
    = [Prompt calc_width] /\
  fsm_state (ctx_of 7 (world (dispatch net_down 7 (Some "Infinity") world_calc_length)))
    = Some calc_width /\
  fsm_data (ctx_of 7 (world (dispatch net_down 7 (Some "Infinity") world_calc_length)))
    = {[ "length" := Inf false ]}.
Proof.
  split; [apply reachable_run; constructor|].
  repeat split; vm_compute; reflexivity.
Qed.

(** ** The manual rate *)

(** The reply of a calculation that uses the rate [rate]. *)
Definition calculation_reply (data st : Settings) (rate : Decimal) : Reply :=
  match b ← compute data st rate; render data st b with
  | Ok r => r
  | Raise _ => CalcFailed
  end.

Lemma process_calculation_with_rate (n : Net) (uid : Z) (w : World)
    (st : Settings) (rate : Decimal) :
  load_settings uid (files w) = Ok (Some st) ->
  settings_present (Some st) = true ->
  usable_rate (returned (fetch_eur_rate n (last_eur_rate w))) = Some rate ->
  replies (process_calculation n uid w)
    = [calculation_reply (fsm_data (ctx_of uid w)) st rate] /\
  last_eur_rate (world (process_calculation n uid w))
    = last_after (fetch_eur_rate n (last_eur_rate w)) /\
  fsm_state (ctx_of uid (world (process_calculation n uid w))) = None.
Proof.
  intros Hl Hp Hu. unfold process_calculation, run_fetch, calculation_reply.
  rewrite Hl, Hp, Hu.
  destruct (compute _ st rate ≫= _) as [r|e]; simpl;
    unfold ctx_of; simpl; rewrite lookup_insert_eq; auto.
Qed.

(** ** The division by the rate *)

(** The check [eur_rate <= 0] lets only values above zero through. *)
Lemma checked_input_positive (text : option string) (v : Decimal) :
  checked_input true text = Ok v -> cmp v zero = Gt.
Proof.
  unfold checked_input. destruct (parse_decimal text) as [d|e]; simpl; [|discriminate].
  unfold Dec.le, compare_with. destruct (is_nan d || is_nan zero); simpl; [discriminate|].
  destruct (cmp d zero) eqn:Hc; simpl; try discriminate.
  intros H. now inversion H; subst.
Qed.

(** C10. For a user whose settings load, process_calculation runs the
    arithmetic, with its division by the rate, only on the rate that
    fetch_eur_rate returned and only when that rate is not zero: the reply
    is then the outcome of the arithmetic on the sender's data, the settings
    and this rate, and the arithmetic does not raise DivisionByZero.  When
    the lookup returns None or zero, nothing is computed: the user is asked
    for the rate and put in manual_eur_rate.  process_manual_eur_rate hands a
    text over to process_calculation, as the last known rate, only when it
    parses to a value above zero, and otherwise changes nothing and sends at
    most the validation message. *)
Theorem rate_division_safe (n : Net) (uid : Z) (w : World) (st : Settings) :
  load_settings uid (files w) = Ok (Some st) ->
  st <> ∅ ->
  match usable_rate (returned (fetch_eur_rate n (last_eur_rate w))) with
  | Some rate =>
      returned (fetch_eur_rate n (last_eur_rate w)) = Some rate /\
      is_zero rate = false /\
      compute (fsm_data (ctx_of uid w)) st rate <> Raise DivisionByZero /\
      replies (process_calculation n uid w)
        = [calculation_reply (fsm_data (ctx_of uid w)) st rate]
  | None =>
      (returned (fetch_eur_rate n (last_eur_rate w)) = None \/
       exists z, returned (fetch_eur_rate n (last_eur_rate w)) = Some z /\
                 is_zero z = true) /\
      replies (process_calculation n uid w) = [AskManualRate] /\
      fsm_state (ctx_of uid (world (process_calculation n uid w)))
        = Some manual_eur_rate
  end /\
  forall text : option string,
    match checked_input true text with
    | Ok r =>
        cmp r zero = Gt /\ is_zero r = false /\
        process_manual_eur_rate n uid text w
          = process_calculation n uid (set_last_eur_rate (Some r) w)
    | Raise _ =>
        world (process_manual_eur_rate n uid text w) = w /\
        forall reply,
          In reply (replies (process_manual_eur_rate n uid text w)) ->
          reply = InvalidPositive
    end.
Proof.
  intros Hl Hne.
  assert (Hp : settings_present (Some st) = true).
  { cbn. apply negb_true_iff, bool_decide_eq_false. exact Hne. }
  split.
  - destruct (usable_rate _) as [rate|] eqn:Hu.
    + pose proof (usable_rate_nonzero _ _ Hu) as Hz.
      assert (Hret : returned (fetch_eur_rate n (last_eur_rate w)) = Some rate).
      { unfold usable_rate in Hu.
        destruct (returned _) as [x|]; [|discriminate Hu].
        destruct (truthy x); [now inversion Hu|discriminate Hu]. }
      repeat split; auto.
      * now apply compute_safe.
      * exact (proj1 (process_calculation_with_rate n uid w st rate Hl Hp Hu)).
    + split.
      * unfold usable_rate, truthy in Hu.
        destruct (returned _) as [x|]; [|now left].
        right. exists x. split; [reflexivity|].
        destruct (is_zero x); [reflexivity|discriminate Hu].
      * unfold process_calculation, run_fetch. rewrite Hl, Hp, Hu.
        cbn [replies world done_]. split; [reflexivity|].
        unfold ctx_of, set_state, with_ctx. cbn.
        now rewrite lookup_insert_eq.
  - intros text. unfold process_manual_eur_rate, numeric_handler.
    destruct (checked_input true text) as [r|e] eqn:Hc.
    + repeat split.
      * exact (checked_input_positive text r Hc).
      * exact (checked_input_nonzero text r Hc).
    + destruct e; cbn [world replies done_]; split; try reflexivity;
        intros reply Hin; simpl in Hin; intuition (subst; auto).
Qed.

(** User 7 with the settings of the scenario and the whole parcel entered. *)
Definition scenario_ready : World :=
  world_at 7 calc_delivery_ru scenario_data scenario_files None.

Lemma rate_division_safe_witness :
  match usable_rate (returned (fetch_eur_rate net_rate_100
                                 (last_eur_rate scenario_ready))) with
  | Some rate =>
      returned (fetch_eur_rate net_rate_100 (last_eur_rate scenario_ready))
        = Some rate /\
      is_zero rate = false /\
      compute (fsm_data (ctx_of 7 scenario_ready)) scenario_settings rate
        <> Raise DivisionByZero /\
      replies (process_calculation net_rate_100 7 scenario_ready)
        = [calculation_reply (fsm_data (ctx_of 7 scenario_ready))
             scenario_settings rate]
  | None =>
      (returned (fetch_eur_rate net_rate_100 (last_eur_rate scenario_ready)) = None \/
       exists z, returned (fetch_eur_rate net_rate_100
                             (last_eur_rate scenario_ready)) = Some z /\
                 is_zero z = true) /\
      replies (process_calculation net_rate_100 7 scenario_ready) = [AskManualRate] /\
      fsm_state (ctx_of 7 (world (process_calculation net_rate_100 7 scenario_ready)))
        = Some manual_eur_rate
  end /\
  forall text : option string,
    match checked_input true text with
    | Ok r =>
        cmp r zero = Gt /\ is_zero r = false /\
        process_manual_eur_rate net_rate_100 7 text scenario_ready
          = process_calculation net_rate_100 7
              (set_last_eur_rate (Some r) scenario_ready)
    | Raise _ =>
        world (process_manual_eur_rate net_rate_100 7 text scenario_ready)
          = scenario_ready /\
        forall reply,
          In reply (replies (process_manual_eur_rate net_rate_100 7 text
                               scenario_ready)) ->
          reply = InvalidPositive
    end.
Proof.
  apply (rate_division_safe net_rate_100 7 scenario_ready scenario_settings).
  - vm_compute. reflexivity.
  - vm_compute. discriminate.
Defined.

(** The guard is what keeps the division safe: on the scenario, with the
    rate 0 that a source can answer, the arithmetic raises DivisionByZero,
    and process_calculation asks for the rate instead of computing. *)
Example zero_rate_not_computed :
  compute scenario_data scenario_settings zero = Raise DivisionByZero /\
  returned (fetch_eur_rate net_zero None) = Some zero /\
  replies (process_calculation net_zero 7 scenario_ready) = [AskManualRate].
Proof. repeat split; vm_compute; reflexivity. Qed.

(** How the rate of the re-run calculation is obtained after the manual
    rate [r] was stored: from the cache when every source fails again, from
    the first source that answers otherwise. *)
Inductive resolved_after_manual (n : Net) (r : Decimal) : Decimal -> Prop :=
| resolved_manual : all_sources_fail n -> resolved_after_manual n r r
| resolved_live (pre post : list Source) (s : Source) (R : Decimal) :
    [CBR; CBR_JSON; GoogleFinance] = pre ++ s :: post ->
    Forall (source_fails n) pre ->
    try_source s n = Ok (Some R) ->
    is_zero R = false ->
    resolved_after_manual n r R.

(** C3 (as amended). After a valid manual rate [r] the calculation is run
    again from the start, rate lookup included.  If all three sources fail
    again it uses exactly [r] and the last known rate is [r]; if a source
    answers a non-zero [R], it uses [R] and the last known rate is [R]. *)
Theorem manual_rate_then_calculation (n : Net) (uid : Z) (text : option string)
    (w : World) (st : Settings) (r R : Decimal) :
  checked_input true text = Ok r ->
  load_settings uid (files w) = Ok (Some st) ->
  settings_present (Some st) = true ->
  resolved_after_manual n r R ->
  replies (process_manual_eur_rate n uid text w)
    = [calculation_reply (fsm_data (ctx_of uid w)) st R] /\
  last_eur_rate (world (process_manual_eur_rate n uid text w)) = Some R.
Proof.
  intros Hv Hl Hp Hres.
  unfold process_manual_eur_rate, numeric_handler. rewrite Hv.
  set (w' := set_last_eur_rate (Some r) w).
  assert (Hfetch : usable_rate (returned (fetch_eur_rate n (last_eur_rate w'))) = Some R
                   /\ last_after (fetch_eur_rate n (last_eur_rate w')) = Some R).
  { destruct Hres as [Hall|pre post s R Hsplit Hpre Hs HR].
    - destruct (fetch_from_all_fail _ n (Some r) [] Hall) as (H1 & H2 & _).
      fold (fetch_eur_rate n (Some r)) in H1, H2.
      simpl. rewrite H1, H2. simpl.
      pose proof (checked_input_nonzero text r Hv) as Hz.
      unfold truthy. rewrite Hz. simpl. unfold truthy. rewrite Hz. auto.
    - destruct (fetch_from_success pre s post n (Some r) [] R Hpre Hs)
        as (H1 & H2 & _).
      rewrite <- Hsplit in H1, H2. fold (fetch_eur_rate n (Some r)) in H1, H2.
      simpl. rewrite H1, H2. simpl. unfold truthy. rewrite HR. auto. }
  destruct Hfetch as [Hu Hlast].
  destruct (process_calculation_with_rate n uid w' st R Hl Hp Hu) as (H1 & H2 & _).
  split; [exact H1|]. rewrite H2. exact Hlast.
Qed.

Definition setup_messages : list (Net * option string) :=
  [(net_down, Some "/start"); (net_down, Some "12,5"); (net_down, Some "400");
   (net_down, Some "60"); (net_down, Some "200"); (net_down, Some "200")].

(** User 7 has set the bot up and entered the scenario parcel while every
    source was down, and is now asked for the rate. *)
Definition world_manual : World :=
  run 7 (setup_messages ++ parcel_messages ++ [(net_down, Some "300")])
      initial_world.

Lemma world_manual_state :
  reachable world_manual /\
  fsm_state (ctx_of 7 world_manual) = Some manual_eur_rate /\
  fsm_data (ctx_of 7 world_manual) = scenario_data /\
  load_settings 7 (files world_manual) = Ok (Some scenario_settings) /\
  last_eur_rate world_manual = None.
Proof.
  split; [apply reachable_run; constructor|].
  repeat split; vm_compute; reflexivity.
Qed.

Lemma manual_rate_then_calculation_witness :
  replies (process_manual_eur_rate net_down 7 (Some "90") world_manual)
    = [calculation_reply (fsm_data (ctx_of 7 world_manual)) scenario_settings
         (Fin false 90 0)] /\
  last_eur_rate (world (process_manual_eur_rate net_down 7 (Some "90") world_manual))
    = Some (Fin false 90 0).
Proof.
  apply (manual_rate_then_calculation net_down 7 (Some "90") world_manual
           scenario_settings (Fin false 90 0) (Fin false 90 0)).
  - vm_compute. reflexivity.
  - vm_compute. reflexivity.
  - vm_compute. reflexivity.
  - apply resolved_manual. repeat constructor; intros x; vm_compute; discriminate.
Defined.

(** C3 as stated fails: when the feed answers again while the manual rate
    is handled, the calculation uses the feed's rate and the last known rate
    is the feed's, not the one the user entered. *)
Lemma manual_rate_not_authoritative :
  ~ (forall (n : Net) (uid : Z) (text : option string) (w : World) (r : Decimal),
        reachable w ->
        fsm_state (ctx_of uid w) = Some manual_eur_rate ->
        checked_input true text = Ok r ->
        last_eur_rate (world (dispatch n uid text w)) = Some r /\
        forall st data b,
          In (CalcResult st data b) (replies (dispatch n uid text w)) ->
          b_eur_rate b = r).
Proof.
  intros H.
  destruct (H net_rate_100 7 (Some "90") world_manual (Fin false 90 0))
    as [Hlast _].
  - apply world_manual_state.
  - apply world_manual_state.
  - vm_compute. reflexivity.
  - vm_compute in Hlast. discriminate Hlast.
Qed.

(** ** str and Decimal are inverse *)

Module StrFacts.

Import DigitFacts.

Lemma below_10 (P : N -> Prop) :
  P 0%N -> P 1%N -> P 2%N -> P 3%N -> P 4%N -> P 5%N -> P 6%N -> P 7%N ->
  P 8%N -> P 9%N -> forall d, (d < 10)%N -> P d.
Proof.
  intros H0 H1 H2 H3 H4 H5 H6 H7 H8 H9 d Hd.
  assert (d = 0 \/ d = 1 \/ d = 2 \/ d = 3 \/ d = 4 \/ d = 5 \/ d = 6 \/
          d = 7 \/ d = 8 \/ d = 9)%N as Hcases by lia.
  repeat (destruct Hcases as [->|Hcases]; [assumption|]). now subst.
Qed.

(** A character that the constructor neither strips, removes nor changes. *)
Definition stable (c : ascii) : bool :=
  negb (is_space c) && negb (is_underscore c) && Ascii.eqb (lower c) c.

Definition plain (c : ascii) : bool :=
  negb (is_space c) && negb (is_underscore c).

Lemma digit_char_facts (d : N) :
  (d < 10)%N ->
  is_digit (digit_char d) = true /\ digit_val (digit_char d) = d /\
  stable (digit_char d) = true.
Proof. revert d. apply below_10; vm_compute; auto. Qed.

Lemma digit_chars_digits (n : N) :
  Forall (fun c => is_digit c = true) (digit_chars n).
Proof.
  unfold digit_chars. apply Forall_map.
  eapply Forall_impl; [apply digits_small|].
  intros d Hd. simpl. now apply digit_char_facts.
Qed.

Lemma digit_chars_stable (n : N) :
  Forall (fun c => stable c = true) (digit_chars n).
Proof.
  unfold digit_chars. apply Forall_map.
  eapply Forall_impl; [apply digits_small|].
  intros d Hd. simpl. now apply digit_char_facts.
Qed.

Lemma int_of_digit_chars (n : N) : int_of_chars (digit_chars n) = n.
Proof.
  unfold int_of_chars, digit_chars. rewrite map_map.
  rewrite (map_ext_Forall _ id).
  - rewrite map_id. apply undigits_digits.
  - eapply Forall_impl; [apply digits_small|].
    intros d Hd. simpl. now apply digit_char_facts.
Qed.

Lemma digit_chars_length (n : N) : Z.of_nat (length (digit_chars n)) = ndigits n.
Proof. unfold digit_chars, ndigits. now rewrite length_map. Qed.

Lemma digit_chars_nonempty (n : N) : digit_chars n <> [].
Proof.
  intros H. pose proof (digit_chars_length n) as Hl.
  rewrite H in Hl. pose proof (ndigits_pos n). simpl in Hl. lia.
Qed.

(** Leading zeros do not change the number read. *)
Lemma int_of_chars_zeros (k : nat) (l : list ascii) :
  int_of_chars (repeat "0"%char k ++ l) = int_of_chars l.
Proof.
  unfold int_of_chars, undigits. rewrite map_app, fold_left_app.
  f_equal. induction k as [|k IH]; simpl; [reflexivity|exact IH].
Qed.

Definition stops (l : list ascii) : Prop :=
  match l with
  | [] => True
  | c :: _ => is_digit c = false
  end.

Lemma span_digits_app (ds rest : list ascii) :
  Forall (fun c => is_digit c = true) ds -> stops rest ->
  span_digits (ds ++ rest) = (ds, rest).
Proof.
  intros Hds Hrest. induction Hds as [|c ds Hc _ IH]; simpl.
  - destruct rest as [|c r]; simpl in *; [reflexivity|now rewrite Hrest].
  - now rewrite Hc, IH.
Qed.

Lemma lstrip_plain (l : list ascii) :
  Forall (fun c => plain c = true) l -> lstrip l = l.
Proof.
  intros H. destruct H as [|c l Hc _]; simpl; [reflexivity|].
  unfold plain in Hc. destruct (is_space c); [discriminate|reflexivity].
Qed.

Lemma strip_plain (l : list ascii) :
  Forall (fun c => plain c = true) l -> strip l = l.
Proof.
  intros H. unfold strip. rewrite (lstrip_plain l H).
  rewrite lstrip_plain; [apply rev_involutive|].
  now apply List.Forall_rev.
Qed.

Lemma filter_plain (l : list ascii) :
  Forall (fun c => plain c = true) l ->
  List.filter (fun c => negb (is_underscore c)) l = l.
Proof.
  induction 1 as [|c l Hc _ IH]; [reflexivity|].
  unfold plain in Hc. simpl.
  destruct (is_underscore c), (is_space c); simpl in *;
    try discriminate. now rewrite IH.
Qed.

(** The constructor after stripping, removing underscores and lowering. *)
Definition core (l : list ascii) : result Decimal :=
  let '(s, r) := split_sign l in
  match parse_number s r with
  | Some d => Ok d
  | None =>
      match parse_special s r with
      | Some d => Ok d
      | None => Raise InvalidOperation
      end
  end.

Lemma of_chars_plain (t : list ascii) :
  Forall (fun c => plain c = true) t -> of_chars t = core (map lower t).
Proof.
  intros H. unfold of_chars, core.
  now rewrite (strip_plain t H), (filter_plain t H).
Qed.

Lemma stable_plain (c : ascii) : stable c = true -> plain c = true.
Proof.
  unfold stable, plain. intros H.
  apply andb_prop in H. tauto.
Qed.

Lemma lower_stable (l : list ascii) :
  Forall (fun c => stable c = true) l -> map lower l = l.
Proof.
  induction 1 as [|c l Hc _ IH]; [reflexivity|]. simpl. rewrite IH. f_equal.
  unfold stable in Hc. apply andb_prop in Hc. destruct Hc as [_ Hc].
  now apply Ascii.eqb_eq.
Qed.

Lemma split_sign_digit (c : ascii) (r : list ascii) :
  is_digit c = true -> split_sign (c :: r) = (false, c :: r).
Proof.
  intros H.
  destruct c as [[] [] [] [] [] [] [] []]; vm_compute in H;
    try discriminate H; reflexivity.
Qed.

Lemma plus_d_stable (x : Z) : Forall (fun c => stable c = true) (plus_d x).
Proof.
  unfold plus_d. constructor; [destruct (x <? 0); reflexivity|].
  apply digit_chars_stable.
Qed.

Lemma parse_exp_plus_d (x : Z) : parse_exp (plus_d x) = Some x.
Proof.
  unfold parse_exp, plus_d.
  assert (Hspan : span_digits (digit_chars (Z.abs_N x))
                  = (digit_chars (Z.abs_N x), [])).
  { rewrite <- (app_nil_r (digit_chars _)) at 1.
    apply span_digits_app; [apply digit_chars_digits|exact I]. }
  pose proof (digit_chars_nonempty (Z.abs_N x)) as Hne.
  destruct (x <? 0) eqn:Hneg; cbn [split_sign]; rewrite Hspan;
    destruct (digit_chars (Z.abs_N x)) as [|c0 ds] eqn:Hds; try congruence;
    rewrite <- Hds, int_of_digit_chars; unfold signed; f_equal; lia.
Qed.

Definition frac_text (fp : option (list ascii)) : list ascii :=
  match fp with
  | Some f => "."%char :: f
  | None => []
  end.

Definition exp_text (x : option Z) : list ascii :=
  match x with
  | Some x => "e"%char :: plus_d x
  | None => []
  end.

(** What the digits form reads from a text of the shape that str writes. *)
Lemma parse_number_written (s : bool) (ip : list ascii)
    (fp : option (list ascii)) (x : option Z) :
  ip <> [] ->
  Forall (fun c => is_digit c = true) ip ->
  Forall (fun c => is_digit c = true) (default [] fp) ->
  parse_number s (ip ++ frac_text fp ++ exp_text x)
    = Some (Fin s (int_of_chars (ip ++ default [] fp))
              (default 0 x - Z.of_nat (length (default [] fp)))).
Proof.
  intros Hne Hip Hfp. unfold parse_number.
  rewrite (span_digits_app ip _ Hip)
    by (destruct fp, x; simpl; auto).
  assert (Hfrac :
    match frac_text fp ++ exp_text x with
    | "."%char :: r => span_digits r
    | _ => ([], frac_text fp ++ exp_text x)
    end = (default [] fp, exp_text x)).
  { destruct fp as [f|]; simpl.
    - apply span_digits_app; [exact Hfp|]. destruct x; simpl; auto.
    - destruct x; reflexivity. }
  rewrite Hfrac.
  destruct ip as [|c0 ip']; [congruence|].
  destruct x as [x|]; cbn [exp_text default]; cbv beta iota.
  - rewrite parse_exp_plus_d. reflexivity.
  - do 2 f_equal.
Qed.

(** Digit characters, which lowering leaves alone. *)
Definition numeral (l : list ascii) : Prop :=
  Forall (fun c => is_digit c = true /\ stable c = true) l.

Lemma numeral_digit_chars (n : N) : numeral (digit_chars n).
Proof.
  unfold numeral, digit_chars. apply Forall_map.
  eapply Forall_impl; [apply digits_small|].
  intros d Hd. simpl. split; now apply digit_char_facts.
Qed.

Lemma numeral_zeros (k : nat) : numeral (repeat "0"%char k).
Proof.
  induction k as [|k IH]; simpl; constructor; [split; reflexivity|exact IH].
Qed.

Lemma numeral_digits (l : list ascii) :
  numeral l -> Forall (fun c => is_digit c = true) l.
Proof. intros H. eapply Forall_impl; [exact H|]. simpl. tauto. Qed.

Lemma numeral_stable (l : list ascii) :
  numeral l -> Forall (fun c => stable c = true) l.
Proof. intros H. eapply Forall_impl; [exact H|]. simpl. tauto. Qed.

Definition exp_upper (x : option Z) : list ascii :=
  match x with
  | Some x => "E"%char :: plus_d x
  | None => []
  end.

(** The parts of str(d) for a finite d: integer digits, optional
    fraction digits, optional exponent. *)
Lemma to_chars_fin (s : bool) (c : N) (e : Z) :
  exists (ip : list ascii) (fp : option (list ascii)) (x : option Z),
    to_chars (Fin s c e) = sign_chars s ++ ip ++ frac_text fp ++ exp_upper x /\
    ip <> [] /\ numeral ip /\ numeral (default [] fp) /\
    int_of_chars (ip ++ default [] fp) = c /\
    default 0 x - Z.of_nat (length (default [] fp)) = e.
Proof.
  pose proof (numeral_digit_chars c) as Hds.
  pose proof (int_of_digit_chars c) as Hint.
  pose proof (digit_chars_length c) as Hlen.
  pose proof (ndigits_pos c) as Hpos.
  unfold to_chars. cbv zeta.
  set (ds := digit_chars c) in *.
  set (len := Z.of_nat (length ds)) in *.
  assert (Hexp : forall dp : Z,
             (if e + len =? dp then [] else "E"%char :: plus_d (e + len - dp))
             = exp_upper (if e + len =? dp then None else Some (e + len - dp))).
  { intros dp. destruct (e + len =? dp); reflexivity. }
  destruct ((e <=? 0) && (-6 <? e + len)) eqn:Hb.
  - apply andb_prop in Hb. destruct Hb as [He _]. apply Z.leb_le in He.
    rewrite Z.eqb_refl.
    destruct (Z.leb_spec (e + len) 0) as [Hle|Hgt].
    + exists ["0"%char], (Some (repeat "0"%char (Z.to_nat (- (e + len))) ++ ds)), None.
      cbn [frac_text exp_upper default from_option id].
      split; [reflexivity|]. repeat split.
      * discriminate.
      * repeat constructor.
      * apply Forall_app. split; [apply numeral_zeros|exact Hds].
      * change (["0"%char] ++ ?l) with (repeat "0"%char 1 ++ l).
        now rewrite !int_of_chars_zeros.
      * rewrite length_app, repeat_length. lia.
    + destruct (Z.leb_spec len (e + len)) as [Hle'|Hgt'].
      * exists (ds ++ repeat "0"%char (Z.to_nat (e + len - len))), None, None.
        replace (Z.to_nat (e + len - len)) with 0%nat by lia.
        cbn [frac_text exp_upper default from_option id repeat]. rewrite !app_nil_r.
        split; [reflexivity|]. repeat split; try assumption; try constructor.
        -- intros Hnil. unfold len in Hlen. rewrite Hnil in Hlen. simpl in Hlen. lia.
        -- simpl. lia.
      * exists (take (Z.to_nat (e + len)) ds), (Some (drop (Z.to_nat (e + len)) ds)), None.
        cbn [frac_text exp_upper default from_option id].
      split; [reflexivity|]. repeat split.
        -- intros Hnil. apply (f_equal length) in Hnil.
           rewrite length_take in Hnil. simpl in Hnil. lia.
        -- now apply Forall_take.
        -- now apply Forall_drop.
        -- now rewrite take_drop.
        -- rewrite length_drop. lia.
  - change (1 <=? 0) with false. cbv iota. rewrite Hexp.
    destruct (Z.leb_spec len 1) as [Hle|Hgt].
    + exists (ds ++ repeat "0"%char (Z.to_nat (1 - len))), None,
             (if e + len =? 1 then None else Some (e + len - 1)).
      replace (Z.to_nat (1 - len)) with 0%nat by lia.
      cbn [frac_text default from_option id repeat]. rewrite !app_nil_r.
      split; [reflexivity|]. repeat split; try assumption; try constructor.
      * intros Hnil. unfold len in Hlen. rewrite Hnil in Hlen. simpl in Hlen. lia.
      * destruct (Z.eqb_spec (e + len) 1); simpl; lia.
    + exists (take 1 ds), (Some (drop 1 ds)),
             (if e + len =? 1 then None else Some (e + len - 1)).
      cbn [frac_text default from_option id].
      split; [reflexivity|]. repeat split.
      * intros Hnil. apply (f_equal length) in Hnil.
        rewrite length_take in Hnil. simpl length in Hnil. unfold len in *. lia.
      * now apply Forall_take.
      * now apply Forall_drop.
      * now rewrite take_drop.
      * rewrite length_drop.
        destruct (Z.eqb_spec (e + len) 1); simpl; lia.
Qed.

Lemma stable_all_plain (l : list ascii) :
  Forall (fun c => stable c = true) l -> Forall (fun c => plain c = true) l.
Proof. intros H. eapply Forall_impl; [exact H|]. apply stable_plain. Qed.

Lemma sign_chars_stable (s : bool) : Forall (fun c => stable c = true) (sign_chars s).
Proof. destruct s; repeat constructor. Qed.

Lemma frac_text_stable (fp : option (list ascii)) :
  numeral (default [] fp) -> Forall (fun c => stable c = true) (frac_text fp).
Proof.
  destruct fp as [f|]; simpl; intros H; [|constructor].
  constructor; [reflexivity|now apply numeral_stable].
Qed.

Lemma exp_upper_plain (x : option Z) :
  Forall (fun c => plain c = true) (exp_upper x).
Proof.
  destruct x as [x|]; simpl; [|constructor].
  constructor; [reflexivity|]. apply stable_all_plain, plus_d_stable.
Qed.

Lemma exp_upper_lower (x : option Z) : map lower (exp_upper x) = exp_text x.
Proof.
  destruct x as [x|]; [|reflexivity]. cbn [exp_upper exp_text map].
  rewrite (lower_stable _ (plus_d_stable x)). reflexivity.
Qed.

Lemma core_signed (s : bool) (ip rest : list ascii) :
  ip <> [] -> Forall (fun c => is_digit c = true) ip ->
  core (sign_chars s ++ ip ++ rest)
    = match parse_number s (ip ++ rest) with
      | Some d => Ok d
      | None =>
          match parse_special s (ip ++ rest) with
          | Some d => Ok d
          | None => Raise InvalidOperation
          end
      end.
Proof.
  intros Hne Hip. unfold core. destruct s; [reflexivity|].
  destruct Hip as [|c0 ip' Hc0 _]; [congruence|].
  cbn [sign_chars app]. now rewrite (split_sign_digit c0 _ Hc0).
Qed.

Lemma parse_number_letter (s : bool) (c : ascii) (r : list ascii) :
  is_digit c = false -> c <> "."%char -> parse_number s (c :: r) = None.
Proof.
  intros Hd Hdot. unfold parse_number. cbn [span_digits]. rewrite Hd.
  destruct c as [[] [] [] [] [] [] [] []]; try reflexivity; congruence.
Qed.

Lemma of_chars_to_chars (d : Decimal) : of_chars (to_chars d) = Ok d.
Proof.
  destruct d as [s c e|s|s sg p].
  - destruct (to_chars_fin s c e) as (ip & fp & x & Heq & Hne & Hip & Hfp & Hc & He).
    rewrite Heq, of_chars_plain.
    + rewrite !map_app, exp_upper_lower.
      rewrite (lower_stable _ (sign_chars_stable s)).
      rewrite (lower_stable _ (numeral_stable _ Hip)).
      rewrite (lower_stable _ (frac_text_stable fp Hfp)).
      rewrite core_signed by (auto using numeral_digits).
      rewrite parse_number_written by (auto using numeral_digits).
      now rewrite Hc, He.
    + repeat (apply Forall_app; split);
        auto using stable_all_plain, sign_chars_stable, numeral_stable,
                   frac_text_stable, exp_upper_plain.
  - destruct s; vm_compute; reflexivity.
  - assert (Hdigs : forall q : list ascii,
               Forall (fun c => is_digit c = true) q ->
               Forall (fun c => stable c = true) q ->
               forall pre : list ascii,
                 pre = list_ascii_of_string (if sg then "sNaN" else "NaN") ->
                 of_chars (sign_chars s ++ pre ++ q) = Ok (NaN s sg (int_of_chars q))).
    { intros q Hq Hst pre ->. rewrite of_chars_plain.
      - rewrite !map_app, (lower_stable _ (sign_chars_stable s)), (lower_stable q Hst).
        assert (Hspan : span_digits q = (q, [])).
        { rewrite <- (app_nil_r q) at 1. now apply span_digits_app. }
        unfold core.
        destruct sg;
          [change (map lower (list_ascii_of_string "sNaN"))
             with (list_ascii_of_string "snan")
          |change (map lower (list_ascii_of_string "NaN"))
             with (list_ascii_of_string "nan")];
          destruct s; cbn -[span_digits int_of_chars parse_number parse_nan];
          rewrite parse_number_letter by (vm_compute; congruence);
          unfold parse_nan; rewrite Hspan; reflexivity.
      - repeat (apply Forall_app; split);
          auto using stable_all_plain, sign_chars_stable.
        destruct sg; repeat constructor. }
    cbn [to_chars]. destruct (p =? 0)%N eqn:Hp.
    + apply N.eqb_eq in Hp. subst p.
      now rewrite (Hdigs [] ltac:(constructor) ltac:(constructor) _ eq_refl).
    + rewrite (Hdigs (digit_chars p) (digit_chars_digits p) (digit_chars_stable p) _ eq_refl).
      now rewrite int_of_digit_chars.
Qed.

End StrFacts.

(** ** Saving and loading settings *)

Lemma of_string_to_string (d : Decimal) : Dec.of_string (Dec.to_string d) = Ok d.
Proof.
  unfold Dec.of_string, Dec.to_string.
  rewrite list_ascii_of_string_of_list_ascii.
  apply StrFacts.of_chars_to_chars.
Qed.

Lemma load_dict_saved (m : Settings) : load_dict (Dec.to_string <$> m) = Ok m.
Proof.
  unfold load_dict. rewrite decide_True.
  - f_equal. apply map_eq. intros k. rewrite lookup_omap, lookup_fmap.
    destruct (m !! k) as [d|]; simpl; [|reflexivity].
    now rewrite of_string_to_string.
  - apply map_Forall_lookup. intros k v. rewrite lookup_fmap.
    destruct (m !! k) as [d|]; simpl; [|discriminate].
    intros [= <-]. now rewrite of_string_to_string.
Qed.

(** C9. Loading after saving returns exactly the saved record, whatever
    was stored for that user before, and a save replaces the user's file as
    a whole: the file after two saves is the file after the second alone. *)
Theorem load_after_save (user_id : Z) (settings previous : Settings) (fs : Files) :
  load_settings user_id (save_settings user_id settings fs) = Ok (Some settings) /\
  load_settings user_id
    (save_settings user_id settings (save_settings user_id previous fs))
    = Ok (Some settings) /\
  save_settings user_id settings (save_settings user_id previous fs)
    = save_settings user_id settings fs.
Proof.
  unfold load_settings, save_settings.
  rewrite insert_insert_eq, lookup_insert_eq, load_dict_saved.
  repeat split.
Qed.

(** Running the setup chain a second time leaves the record of that
    run. *)
Example setup_twice :
  load_settings 7 (files (run 7 (setup_messages ++ [(net_down, Some btn_settings);
                                   (net_down, Some "11"); (net_down, Some "350");
                                   (net_down, Some "55,5"); (net_down, Some "0");
                                   (net_down, Some "150")]) initial_world))
  = Ok (Some (<["cny_rate" := Fin false 11 0]>
              (<["weight_tariff" := Fin false 350 0]>
               (<["volume_coefficient" := Fin false 555 (-1)]>
                (<["photo_report" := Fin false 0 0]>
                 (<["duty_free_threshold" := Fin false 150 0]> ∅)))))).
Proof. vm_compute. reflexivity. Qed.

(** ** Numeric value of a Decimal *)

Module ValueFacts.

Import DigitFacts.




Lemma pow10_pos (k : Z) : 0 <= k -> 0 < 10 ^ k.
Proof. intros. apply Z.pow_pos_nonneg; lia. Qed.







Lemma signed_zero (s : bool) : signed s 0 = 0.
Proof. destruct s; reflexivity. Qed.




















Definition is_fin (d : Decimal) : Prop :=
  match d with
  | Fin _ _ _ => True
  | _ => False
  end.






Lemma fix_fin (s : bool) (c : N) (e : Z) (d : Decimal) :
  fix_ s c e = Ok d -> exists c' e', d = Fin s c' e'.
Proof.
  unfold fix_.
  repeat match goal with
         | |- context [if ?b then _ else _] => destruct b
         end; intros H; inversion H; eauto.
Qed.


Lemma add_fin (a b d : Decimal) :
  is_fin a -> is_fin b -> Dec.add a b = Ok d -> is_fin d.
Proof.
  destruct a, b; try contradiction. intros _ _ H. cbn [Dec.add check_nans] in H.
  apply fix_fin in H. destruct H as (? & ? & ->). exact I.
Qed.

Lemma negate_fin (a : Decimal) : is_fin a -> is_fin (negate a).
Proof. destruct a; auto. Qed.

Lemma sub_fin (a b d : Decimal) :
  is_fin a -> is_fin b -> Dec.sub a b = Ok d -> is_fin d.
Proof.
  destruct a, b; try contradiction. intros _ _ H.
  cbn [Dec.sub check_nans] in H. eapply add_fin; [| |exact H]; exact I.
Qed.




End ValueFacts.

(** ** The pricing formulas of the specification *)








Import ValueFacts.


















(** ** When the formulas are defined *)





















(** * Further properties of the handlers *)

(** ** What a handler may touch *)

Lemma ctx_of_with_ctx (uid uid' : Z) (c : FSMContext) (w : World) :
  ctx_of uid' (with_ctx uid c w) = if decide (uid = uid') then c else ctx_of uid' w.
Proof.
  unfold ctx_of, with_ctx. simpl. rewrite lookup_insert.
  destruct (decide (uid = uid')); reflexivity.
Qed.

(** [w'] differs from [w] at most in the context of [uid], the last known
    rate and the trace. *)
Definition same_but_ctx (uid : Z) (w w' : World) : Prop :=
  files w' = files w /\
  forall uid', uid' <> uid -> storage w' !! uid' = storage w !! uid'.

Lemma same_but_ctx_refl (uid : Z) (w : World) : same_but_ctx uid w w.
Proof. split; auto. Qed.

Lemma same_but_ctx_trans (uid : Z) (w1 w2 w3 : World) :
  same_but_ctx uid w1 w2 -> same_but_ctx uid w2 w3 -> same_but_ctx uid w1 w3.
Proof.
  intros [F1 S1] [F2 S2]. split; [congruence|].
  intros uid' Hne. rewrite S2, S1; auto.
Qed.

Lemma same_but_ctx_with_ctx (uid : Z) (c : FSMContext) (w : World) :
  same_but_ctx uid w (with_ctx uid c w).
Proof.
  split; [reflexivity|]. intros uid' Hne. simpl.
  now rewrite lookup_insert_ne by congruence.
Qed.

Lemma same_but_ctx_set_state (uid : Z) (st : DeliveryStates) (w : World) :
  same_but_ctx uid w (set_state uid st w).
Proof. apply same_but_ctx_with_ctx. Qed.

Lemma same_but_ctx_update_data (uid : Z) (k : string) (v : Decimal) (w : World) :
  same_but_ctx uid w (update_data uid k v w).
Proof. apply same_but_ctx_with_ctx. Qed.

Lemma same_but_ctx_clear (uid : Z) (w : World) : same_but_ctx uid w (clear uid w).
Proof. apply same_but_ctx_with_ctx. Qed.

Lemma same_but_ctx_run_fetch (uid : Z) (n : Net) (w : World) :
  same_but_ctx uid w (snd (run_fetch n w)).
Proof. split; auto. Qed.

Lemma numeric_handler_cases (strict : bool) (text : option string) (w : World)
    (on_value : Decimal -> Outcome) :
  (exists v, checked_input strict text = Ok v /\
             numeric_handler strict text w on_value = on_value v) \/
  (checked_input strict text = Raise ValueError /\
   numeric_handler strict text w on_value
     = done_ w [if strict then InvalidPositive else InvalidNonNegative]) \/
  (exists e, checked_input strict text = Raise e /\ e <> ValueError /\
             numeric_handler strict text w on_value
               = {| world := w; replies := []; uncaught := Some e |}).
Proof.
  unfold numeric_handler.
  destruct (checked_input strict text) as [v|e]; [left; eauto|].
  destruct e; try (right; right; eexists; repeat split; discriminate).
  right; left; auto.
Qed.

Lemma process_calculation_frame (n : Net) (uid : Z) (w : World) :
  same_but_ctx uid w (world (process_calculation n uid w)).
Proof.
  unfold process_calculation.
  pose proof (same_but_ctx_run_fetch uid n w) as Hf.
  destruct (run_fetch n w) as [rate w1]. simpl in Hf.
  destruct (load_settings uid (files w)) as [[st|]|e];
    [|apply same_but_ctx_refl|apply same_but_ctx_clear].
  destruct (settings_present (Some st)); [|apply same_but_ctx_refl].
  destruct (usable_rate rate) as [r|].
  - destruct (compute _ _ _ ≫= _);
      (eapply same_but_ctx_trans; [exact Hf|apply same_but_ctx_clear]).
  - eapply same_but_ctx_trans; [exact Hf|apply same_but_ctx_set_state].
Qed.

Lemma numeric_handler_frame (P : World -> Prop) (strict : bool)
    (text : option string) (w : World) (on_value : Decimal -> Outcome) :
  P w -> (forall v, checked_input strict text = Ok v -> P (world (on_value v))) ->
  P (world (numeric_handler strict text w on_value)).
Proof.
  intros Hw Hv.
  destruct (numeric_handler_cases strict text w on_value)
    as [(v & Hc & ->)|[(_ & ->)|(e & _ & _ & ->)]]; auto.
Qed.

Lemma start_command_frame (uid : Z) (w : World) :
  same_but_ctx uid w (world (start_command uid w)).
Proof.
  unfold start_command.
  destruct (load_settings uid (files w)) as [o|e]; simpl;
    [|apply same_but_ctx_refl].
  destruct (settings_present o); simpl;
    [apply same_but_ctx_refl|apply same_but_ctx_set_state].
Qed.

(** The handler of a state leaves the files alone, except the last setup
    step, which writes the file of [uid] only. *)
Lemma state_handler_frame (n : Net) (s : DeliveryStates) (uid : Z)
    (text : option string) (w : World) :
  (forall uid', uid' <> uid ->
     storage (world (state_handler n s uid text w)) !! uid' = storage w !! uid' /\
     files (world (state_handler n s uid text w)) !! uid' = files w !! uid') /\
  (s <> setup_duty_free_threshold ->
   files (world (state_handler n s uid text w)) = files w).
Proof.
  assert (Hgen : forall o : Outcome,
             same_but_ctx uid w (world o) ->
             (forall uid', uid' <> uid ->
                storage (world o) !! uid' = storage w !! uid' /\
                files (world o) !! uid' = files w !! uid') /\
             (s <> setup_duty_free_threshold -> files (world o) = files w)).
  { intros o [Hf Hs]. split; [|auto]. intros uid' Hne. rewrite Hf. auto. }
  assert (Hadv : forall strict key next,
             same_but_ctx uid w
               (world (numeric_handler strict text w
                         (store_and_advance uid key next w)))).
  { intros. apply numeric_handler_frame; [apply same_but_ctx_refl|].
    intros v _. simpl.
    eapply same_but_ctx_trans;
      [apply same_but_ctx_update_data|apply same_but_ctx_set_state]. }
  destruct s; cbn [state_handler]; try (apply Hgen; apply Hadv).
  - split; [|congruence]. intros uid' Hne.
    unfold process_duty_free_threshold.
    apply (numeric_handler_frame
             (fun w' => storage w' !! uid' = storage w !! uid' /\
                        files w' !! uid' = files w !! uid')); [auto|].
    intros v _. destruct (assemble_settings _ v); simpl; [|auto].
    unfold save_settings. now rewrite !lookup_insert_ne by congruence.
  - apply Hgen. unfold process_manual_eur_rate.
    apply numeric_handler_frame; [apply same_but_ctx_refl|].
    intros v _.
    exact (process_calculation_frame n uid (set_last_eur_rate (Some v) w)).
  - apply Hgen. unfold process_delivery_ru.
    apply numeric_handler_frame; [apply same_but_ctx_refl|].
    intros v _.
    eapply same_but_ctx_trans; [apply (same_but_ctx_update_data uid "delivery_ru" v)|].
    apply process_calculation_frame.
Qed.

(** Every message is handled by one of six routines. *)
Lemma dispatch_message_cases (P : Outcome -> Prop) (n : Net) (uid : Z)
    (text caption : option string) (w : World) :
  P (start_command uid w) ->
  P (start_command uid (clear uid w)) ->
  P (settings_menu uid w) ->
  P (start_calculation uid w) ->
  (forall s, fsm_state (ctx_of uid w) = Some s -> P (state_handler n s uid text w)) ->
  P (done_ w []) ->
  P (dispatch_message n uid text caption w).
Proof.
  intros H1 H2 H3 H4 H5 H6.
  unfold dispatch_message, restart_button, restart_command.
  repeat match goal with
         | |- P (if ?c then _ else _) => destruct c; [assumption|]
         end.
  destruct (fsm_state (ctx_of uid w)) as [s|].
  - destruct (is_setup_state s); [now apply H5|].
    destruct (text_is btn_calculate text); [assumption|now apply H5].
  - destruct (text_is btn_calculate text); assumption.
Qed.

Lemma dispatch_cases (P : Outcome -> Prop) (n : Net) (uid : Z)
    (text : option string) (w : World) :
  P (start_command uid w) ->
  P (start_command uid (clear uid w)) ->
  P (settings_menu uid w) ->
  P (start_calculation uid w) ->
  (forall s, fsm_state (ctx_of uid w) = Some s -> P (state_handler n s uid text w)) ->
  P (done_ w []) ->
  P (dispatch n uid text w).
Proof. apply dispatch_message_cases. Qed.

(** X1. Handling a message of one user changes neither the state and data
    nor the settings file of any other user. *)
Theorem dispatch_isolated (n : Net) (uid uid' : Z) (text : option string) (w : World) :
  uid' <> uid ->
  ctx_of uid' (world (dispatch n uid text w)) = ctx_of uid' w /\
  files (world (dispatch n uid text w)) !! uid' = files w !! uid'.
Proof.
  intros Hne.
  assert (Hframe : forall o : Outcome,
             same_but_ctx uid w (world o) ->
             ctx_of uid' (world o) = ctx_of uid' w /\
             files (world o) !! uid' = files w !! uid').
  { intros o [Hf Hs]. unfold ctx_of. rewrite Hf, (Hs uid' Hne). auto. }
  apply dispatch_cases.
  - apply Hframe, start_command_frame.
  - apply Hframe. eapply same_but_ctx_trans;
      [apply same_but_ctx_clear|apply start_command_frame].
  - apply Hframe. apply same_but_ctx_set_state.
  - apply Hframe. apply same_but_ctx_set_state.
  - intros s _. destruct (state_handler_frame n s uid text w) as [H _].
    destruct (H uid' Hne) as [Hs Hf]. unfold ctx_of. rewrite Hs, Hf. auto.
  - auto.
Qed.

Lemma dispatch_isolated_witness :
  ctx_of 8 (world (dispatch net_down 7 (Some "90") world_manual))
    = ctx_of 8 world_manual /\
  files (world (dispatch net_down 7 (Some "90") world_manual)) !! 8
    = files world_manual !! 8.
Proof.
  apply (dispatch_isolated net_down 7 8 (Some "90") world_manual). lia.
Defined.

(** X2. The settings files change only in the last setup step, on an accepted
    threshold, and then only the file of the sender is written, with the
    values collected in the setup steps. *)
Theorem settings_written_only_by_setup (n : Net) (uid : Z) (text : option string)
    (w : World) :
  files (world (dispatch n uid text w)) = files w \/
  (fsm_state (ctx_of uid w) = Some setup_duty_free_threshold /\
   exists threshold settings,
     checked_input true text = Ok threshold /\
     assemble_settings (fsm_data (ctx_of uid w)) threshold = Ok settings /\
     files (world (dispatch n uid text w)) = save_settings uid settings (files w)).
Proof.
  apply dispatch_cases.
  - left. apply start_command_frame.
  - left. apply (same_but_ctx_trans uid w (clear uid w));
      [apply same_but_ctx_clear|apply start_command_frame].
  - left. reflexivity.
  - left. reflexivity.
  - intros s Hs.
    destruct (decide (s = setup_duty_free_threshold)) as [->|Hne].
    + cbn [state_handler]. unfold process_duty_free_threshold.
      destruct (numeric_handler_cases true text w
                  (fun threshold =>
                     match assemble_settings (fsm_data (ctx_of uid w)) threshold with
                     | Raise e => {| world := w; replies := []; uncaught := Some e |}
                     | Ok settings =>
                         done_ (clear uid (set_files (save_settings uid settings (files w)) w))
                               [SettingsInfo settings; SettingsUpdated]
                     end))
        as [(v & Hc & ->)|[(_ & ->)|(e & _ & _ & ->)]]; auto.
      destruct (assemble_settings (fsm_data (ctx_of uid w)) v) as [st|e] eqn:Ha;
        [|auto].
      right. split; [assumption|]. exists v, st. auto.
    + left. now apply state_handler_frame.
  - left. reflexivity.
Qed.

(** ** Numbers are never commands *)

(** A first character with which no Decimal literal starts, also after
    [replace(',', '.')], stripping and lowering. *)
Definition cannot_start (c : ascii) : bool :=
  negb (is_space c) && negb (is_underscore c) && negb (is_digit c) &&
  negb (existsb (Ascii.eqb (lower c)) ["+"; "-"; "."; ","; "i"; "n"; "s"]%char).

Lemma lstrip_snoc (x : list ascii) (c : ascii) :
  is_space c = false -> exists y, lstrip (x ++ [c]) = y ++ [c].
Proof.
  intros Hc. induction x as [|a x IH]; simpl.
  - rewrite Hc. now exists [].
  - destruct (is_space a); [exact IH|]. now exists (a :: x).
Qed.

Lemma strip_head (c : ascii) (r : list ascii) :
  is_space c = false -> exists r', strip (c :: r) = c :: r'.
Proof.
  intros Hc. unfold strip. cbn [lstrip]. rewrite Hc. cbn [rev].
  destruct (lstrip_snoc (rev r) c Hc) as [y Hy]. rewrite Hy.
  rewrite rev_unit. eauto.
Qed.

Lemma of_chars_cannot_start (c : ascii) (r : list ascii) :
  cannot_start c = true -> of_chars (c :: r) = Raise InvalidOperation.
Proof.
  intros H. unfold cannot_start in H.
  apply andb_prop in H. destruct H as [H H4].
  apply andb_prop in H. destruct H as [H H3].
  apply andb_prop in H. destruct H as [H1 H2].
  apply negb_true_iff in H1, H2.
  destruct (strip_head c r H1) as [r' Hr]. unfold of_chars. rewrite Hr.
  cbn [List.filter]. rewrite H2. cbn [negb map].
  set (rest := map lower (List.filter (fun c0 => negb (is_underscore c0)) r')).
  clearbody rest. clear Hr r' r H1 H2.
  destruct c as [[] [] [] [] [] [] [] []]; vm_compute in H3, H4;
    try discriminate H3; try discriminate H4; reflexivity.
Qed.

Lemma parse_decimal_cannot_start (c : ascii) (r : string) :
  cannot_start c = true -> parse_decimal (Some (String c r)) = Raise ValueError.
Proof.
  intros H. unfold parse_decimal, Dec.of_string. cbn [replace_comma].
  assert (Ascii.eqb c ","%char = false) as ->.
  { destruct (Ascii.eqb_spec c ","%char) as [->|]; [|reflexivity].
    vm_compute in H. discriminate H. }
  cbn [list_ascii_of_string]. now rewrite of_chars_cannot_start.
Qed.

Lemma chars_replace_comma (t : string) :
  list_ascii_of_string (replace_comma t)
  = map (fun c => if Ascii.eqb c "," then "."%char else c) (list_ascii_of_string t).
Proof. induction t as [|c r IH]; simpl; [reflexivity|]. now rewrite IH. Qed.

Lemma of_chars_space (c : ascii) (r : list ascii) :
  is_space c = true -> of_chars (c :: r) = of_chars r.
Proof. intros Hc. unfold of_chars, strip. cbn [lstrip]. now rewrite Hc. Qed.

Lemma white2_head (a b : ascii) : white2 a b = true -> a = ascii_of_N 194.
Proof.
  unfold white2. intros H. apply andb_prop in H. destruct H as [H _].
  apply N.eqb_eq in H. rewrite <- (ascii_N_embedding a). now rewrite H.
Qed.

Lemma white3_head (a b c : ascii) :
  white3 a b c = true ->
  a = ascii_of_N 225 \/ a = ascii_of_N 226 \/ a = ascii_of_N 227.
Proof.
  unfold white3. cbv zeta beta iota.
  destruct (N.eqb_spec (N_of_ascii a) 225) as [E|_];
    [left; now rewrite <- (ascii_N_embedding a), E|].
  destruct (N.eqb_spec (N_of_ascii a) 226) as [E|_];
    [right; left; now rewrite <- (ascii_N_embedding a), E|].
  destruct (N.eqb_spec (N_of_ascii a) 227) as [E|_];
    [right; right; now rewrite <- (ascii_N_embedding a), E|].
  cbn. discriminate.
Qed.

(** A text whose first word starts with '/' is no Decimal literal, with
    ',' or with '.'. *)
Lemma slash_word_not_number (l : list ascii) :
  forall r, lstrip_white l = "/"%char :: r ->
    of_chars (map (fun c => if Ascii.eqb c "," then "."%char else c) l)
    = Raise InvalidOperation.
Proof.
  induction l as [|a r1 IH]; intros r Hl; [discriminate Hl|].
  cbn [lstrip_white] in Hl. cbn [map].
  destruct (is_space a) eqn:Ha.
  - assert (Ascii.eqb a "," = false) as ->.
    { destruct (Ascii.eqb_spec a ","%char) as [->|]; [discriminate Ha|reflexivity]. }
    rewrite of_chars_space by exact Ha. now apply (IH r).
  - assert (Hstart : cannot_start a = true ->
                     of_chars ((if Ascii.eqb a "," then "."%char else a)
                               :: map (fun c => if Ascii.eqb c "," then "."%char else c) r1)
                     = Raise InvalidOperation).
    { intros Hc.
      assert (Ascii.eqb a "," = false) as ->.
      { destruct (Ascii.eqb_spec a ","%char) as [->|]; [discriminate Hc|reflexivity]. }
      now apply of_chars_cannot_start. }
    destruct r1 as [|b r2].
    + inversion Hl. subst. now apply Hstart.
    + destruct (white2 a b) eqn:H2.
      * apply white2_head in H2. subst a. now apply Hstart.
      * destruct r2 as [|c r3].
        -- inversion Hl. subst. now apply Hstart.
        -- destruct (white3 a b c) eqn:H3.
           ++ apply white3_head in H3.
              destruct H3 as [->|[->| ->]]; now apply Hstart.
           ++ inversion Hl. subst. now apply Hstart.
Qed.

Lemma until_white_head (l : list ascii) (c : ascii) (r : list ascii) :
  until_white l = c :: r -> exists r', l = c :: r'.
Proof.
  destruct l as [|a l']; [discriminate|]. cbn [until_white].
  destruct (starts_white (a :: l')); [discriminate|].
  intros H. inversion H. eauto.
Qed.

Lemma is_command_slash (me : option string) (name text : string) :
  is_command me name text = true ->
  exists r, lstrip_white (list_ascii_of_string text) = "/"%char :: r.
Proof.
  unfold is_command, first_word.
  destruct (until_white _) as [|c rest] eqn:Hw; [discriminate|].
  destruct (partition_at rest) as [command mention].
  intros H. apply andb_prop in H. destruct H as [H _].
  apply andb_prop in H. destruct H as [H _].
  apply Ascii.eqb_eq in H. subst c.
  exact (until_white_head _ _ _ Hw).
Qed.

Lemma command_not_number (me : option string) (name text : string) :
  is_command me name text = true -> parse_decimal (Some text) = Raise ValueError.
Proof.
  intros H. destruct (is_command_slash me name text H) as [r Hr].
  unfold parse_decimal, Dec.of_string. rewrite chars_replace_comma.
  now rewrite (slash_word_not_number _ r Hr).
Qed.

Lemma dispatch_parsed (n : Net) (uid : Z) (text : option string) (w : World)
    (d : Decimal) :
  parse_decimal text = Ok d ->
  dispatch n uid text w =
  match fsm_state (ctx_of uid w) with
  | Some s => state_handler n s uid text w
  | None => done_ w []
  end.
Proof.
  intros Hd.
  assert (Hcmd : forall me name, command_is me name text = false).
  { intros me name. destruct (command_is me name text) eqn:Hc; [|reflexivity].
    destruct text as [t|]; [|discriminate Hc].
    rewrite (command_not_number me name t Hc) in Hd. discriminate Hd. }
  assert (Hbtn : forall label,
             parse_decimal (Some label) = Raise ValueError ->
             text_is label text = false).
  { intros label Hl. unfold text_is. apply bool_decide_eq_false.
    intros ->. rewrite Hl in Hd. discriminate Hd. }
  rewrite dispatch_unfold, !Hcmd.
  rewrite (Hbtn btn_restart) by (vm_compute; reflexivity).
  rewrite (Hbtn btn_settings) by (vm_compute; reflexivity).
  rewrite (Hbtn btn_calculate) by (vm_compute; reflexivity).
  destruct (fsm_state (ctx_of uid w)) as [s|]; [|reflexivity].
  destruct (is_setup_state s); reflexivity.
Qed.

(** X3. A text that parses as a Decimal is neither a command nor a button:
    it is handled by the handler of the sender's current state, and ignored
    when the sender has no state. *)
Theorem dispatch_number (n : Net) (uid : Z) (text : option string) (w : World)
    (d : Decimal) :
  parse_decimal text = Ok d ->
  dispatch n uid text w =
  match fsm_state (ctx_of uid w) with
  | Some s => state_handler n s uid text w
  | None => done_ w []
  end.
Proof. apply dispatch_parsed. Qed.

Lemma dispatch_number_witness :
  dispatch net_down 7 (Some "12,5") world_calc_length =
  match fsm_state (ctx_of 7 world_calc_length) with
  | Some s => state_handler net_down s 7 (Some "12,5") world_calc_length
  | None => done_ world_calc_length []
  end.
Proof.
  apply (dispatch_number net_down 7 (Some "12,5") world_calc_length
           (Fin false 125 (-1))).
  vm_compute. reflexivity.
Defined.

(** ** What the range checks accept *)

(** The values that pass [v <= 0] ([strict]) or [v < 0]. *)
Definition accepted (strict : bool) (v : Decimal) : Prop :=
  match v with
  | Fin s c e => if strict then s = false /\ (0 < c)%N else s = false \/ c = 0%N
  | Inf s => s = false
  | NaN _ _ _ => False
  end.

Lemma cmp_zero_fin (s : bool) (c : N) (e : Z) :
  cmp (Fin s c e) zero = (signed s c ?= 0).
Proof.
  cbn [cmp zero]. rewrite signed_zero, Z.mul_0_l.
  pose proof (pow10_pos (e - Z.min e 0) ltac:(lia)) as Hp.
  destruct (Z.compare_spec (signed s c) 0) as [H|H|H].
  - rewrite H. reflexivity.
  - apply Z.compare_lt_iff. nia.
  - apply Z.compare_gt_iff. nia.
Qed.

(** The outcome of the range check on a parsed value. *)
Lemma range_check (strict : bool) (v : Decimal) :
  (v' ← Ok v;
   bad ← (if strict then Dec.le v' zero else Dec.lt v' zero);
   if (bad : bool) then Raise ValueError else Ok v')
  = if is_nan v then Raise InvalidOperation
    else match cmp v zero with
         | Gt => Ok v
         | Eq => if strict then Raise ValueError else Ok v
         | Lt => Raise ValueError
         end.
Proof.
  cbn [mbind result_bind]. unfold Dec.le, Dec.lt, compare_with.
  replace (is_nan zero) with false by reflexivity. rewrite orb_false_r.
  destruct (is_nan v); [now destruct strict|].
  destruct strict, (cmp v zero); reflexivity.
Qed.

Lemma checked_input_iff (strict : bool) (text : option string) (v : Decimal) :
  checked_input strict text = Ok v <->
  parse_decimal text = Ok v /\ accepted strict v.
Proof.
  unfold checked_input.
  destruct (parse_decimal text) as [d|e] eqn:Hp.
  - rewrite range_check.
    destruct d as [s c e|s|s sg p]; cbn [is_nan accepted].
    + rewrite cmp_zero_fin.
      destruct (Z.compare_spec (signed s c) 0) as [H|H|H];
        unfold signed in H; destruct strict, s;
        (split; [intros Heq; inversion Heq; subst; split; try reflexivity;
                 cbn [accepted]; lia
                |intros [Heq Hacc]; inversion Heq; subst; cbn [accepted] in Hacc;
                 try reflexivity; exfalso; lia]).
    + destruct strict, s; cbn;
        (split; [intros Heq; inversion Heq; subst; try (split; reflexivity)
                |intros [Heq Hacc]; inversion Heq; subst; cbn in Hacc;
                 try reflexivity; discriminate Hacc]).
    + split; [discriminate|]. intros [Heq Hacc]. inversion Heq; subst.
      contradiction.
  - cbn [mbind result_bind]. split; [discriminate|]. intros [Heq _]. discriminate.
Qed.

(** X4. A text is accepted by a numeric handler exactly when it parses to a
    value that is not a NaN and is positive (for [v <= 0]) or not negative
    (for [v < 0]); +Infinity is accepted, and so is a negative zero where
    zero is. *)
Theorem checked_input_accepts (strict : bool) (text : option string) (v : Decimal) :
  checked_input strict text = Ok v <->
  parse_decimal text = Ok v /\ accepted strict v.
Proof. apply checked_input_iff. Qed.

Lemma checked_input_accepts_witness :
  parse_decimal (Some "Infinity") = Ok (Inf false) /\ accepted true (Inf false).
Proof.
  apply (proj1 (checked_input_accepts true (Some "Infinity") (Inf false))).
  vm_compute. reflexivity.
Defined.

(** ** Rejected inputs *)

(** The check of the handler of a state: [v <= 0], or [v < 0] for the
    photo report fee and the domestic delivery fee. *)
Definition strict_of (s : DeliveryStates) : bool :=
  match s with
  | setup_photo_report | calc_delivery_ru => false
  | _ => true
  end.

Definition retry_message (s : DeliveryStates) : Reply :=
  if strict_of s then InvalidPositive else InvalidNonNegative.

Lemma state_handler_numeric (n : Net) (s : DeliveryStates) (uid : Z)
    (text : option string) (w : World) :
  exists on_value,
    state_handler n s uid text w = numeric_handler (strict_of s) text w on_value.
Proof. destruct s; eexists; reflexivity. Qed.

(** The texts that are taken by a handler registered before the handler
    of state [s], for a bot with the username [me]. *)
Definition is_trigger (me : option string) (s : DeliveryStates)
    (text : option string) : bool :=
  command_is me "start" text || command_is me "restart" text ||
  text_is btn_restart text || text_is btn_settings text ||
  (negb (is_setup_state s) && text_is btn_calculate text).

Lemma dispatch_state_handler (n : Net) (s : DeliveryStates) (uid : Z)
    (text : option string) (w : World) :
  fsm_state (ctx_of uid w) = Some s -> is_trigger (bot_username n) s text = false ->
  dispatch n uid text w = state_handler n s uid text w.
Proof.
  intros Hs Ht. unfold is_trigger in Ht.
  repeat (apply orb_false_elim in Ht; destruct Ht as [Ht ?]).
  rewrite dispatch_unfold, Hs.
  repeat match goal with
         | H : ?c = false |- context [if ?c then _ else _] => rewrite H
         end.
  destruct (is_setup_state s); [reflexivity|].
  simpl in *. now match goal with
                  | H : text_is btn_calculate text = false |- _ => rewrite H
                  end.
Qed.

Lemma parsed_not_trigger (me : option string) (s : DeliveryStates)
    (text : option string) (v : Decimal) :
  parse_decimal text = Ok v -> is_trigger me s text = false.
Proof.
  intros Hv. unfold is_trigger.
  assert (Hcmd : forall u name, command_is u name text = false).
  { intros u name. destruct (command_is u name text) eqn:Hc; [|reflexivity].
    destruct text as [t|]; [|discriminate Hc].
    rewrite (command_not_number u name t Hc) in Hv. discriminate Hv. }
  assert (Hbtn : forall label,
             parse_decimal (Some label) = Raise ValueError ->
             text_is label text = false).
  { intros label Hl. unfold text_is. apply bool_decide_eq_false.
    intros ->. rewrite Hl in Hv. discriminate Hv. }
  rewrite !Hcmd.
  rewrite (Hbtn btn_restart) by (vm_compute; reflexivity).
  rewrite (Hbtn btn_settings) by (vm_compute; reflexivity).
  rewrite (Hbtn btn_calculate) by (vm_compute; reflexivity).
  now rewrite andb_false_r.
Qed.

(** A text that does not parse, or parses to a number outside the range:
    NaN apart. *)
Definition rejected (strict : bool) (text : option string) : Prop :=
  parse_decimal text = Raise ValueError \/
  exists v, parse_decimal text = Ok v /\ is_nan v = false /\ ~ accepted strict v.

Lemma parse_decimal_raises (text : option string) (e : exn) :
  parse_decimal text = Raise e -> e = ValueError.
Proof.
  unfold parse_decimal. destruct text as [t|]; [|congruence].
  destruct (Dec.of_string _); congruence.
Qed.

Lemma checked_input_rejected (strict : bool) (text : option string) :
  rejected strict text -> checked_input strict text = Raise ValueError.
Proof.
  intros [Hp|(v & Hp & Hnan & Hacc)].
  - unfold checked_input. now rewrite Hp.
  - destruct (checked_input strict text) as [v'|e] eqn:Hc.
    + apply checked_input_iff in Hc. destruct Hc as [Hp' Ha].
      rewrite Hp in Hp'. inversion Hp'. subst. contradiction.
    + unfold checked_input in Hc. rewrite Hp, range_check, Hnan in Hc.
      destruct (cmp v zero), strict; congruence.
Qed.




(** X6. In every state a text that parses to a NaN (nan, snan, with a sign
    or digits) makes the handler end with decimal.InvalidOperation: nothing
    is sent and nothing changes. *)
Theorem nan_input_uncaught (n : Net) (s : DeliveryStates) (uid : Z)
    (text : option string) (w : World) (v : Decimal) :
  fsm_state (ctx_of uid w) = Some s ->
  parse_decimal text = Ok v -> is_nan v = true ->
  dispatch n uid text w
    = {| world := w; replies := []; uncaught := Some InvalidOperation |}.
Proof.
  intros Hs Hp Hnan.
  rewrite (dispatch_state_handler n s uid text w Hs
             (parsed_not_trigger _ s text v Hp)).
  destruct (state_handler_numeric n s uid text w) as [k ->].
  unfold numeric_handler, checked_input. now rewrite Hp, range_check, Hnan.
Qed.

Lemma nan_input_uncaught_witness :
  dispatch net_down 7 (Some " -sNaN12 ") world_manual
    = {| world := world_manual; replies := []; uncaught := Some InvalidOperation |}.
Proof.
  apply (nan_input_uncaught net_down manual_eur_rate 7 (Some " -sNaN12 ")
           world_manual (NaN true true 12)).
  - vm_compute. reflexivity.
  - vm_compute. reflexivity.
  - reflexivity.
Defined.

(** ** What every reachable process state satisfies *)

(** The keys that earlier steps have stored when a user is in a state. *)
Definition required (st : option DeliveryStates) : list string :=
  match st with
  | Some setup_weight_tariff => ["cny_rate"]
  | Some setup_volume_coefficient => ["weight_tariff"; "cny_rate"]
  | Some setup_photo_report => ["volume_coefficient"; "weight_tariff"; "cny_rate"]
  | Some setup_duty_free_threshold =>
      ["photo_report"; "volume_coefficient"; "weight_tariff"; "cny_rate"]
  | Some calc_width => ["length"]
  | Some calc_height => ["width"; "length"]
  | Some calc_weight => ["height"; "width"; "length"]
  | Some calc_price_cny => ["weight"; "height"; "width"; "length"]
  | Some calc_delivery_ru => ["price_cny"; "weight"; "height"; "width"; "length"]
  | Some manual_eur_rate =>
      ["delivery_ru"; "price_cny"; "weight"; "height"; "width"; "length"]
  | _ => []
  end.

Definition has_keys (m : Settings) (l : list string) : Prop :=
  Forall (fun k => is_Some (m !! k)) l.

Definition settings_keys : list string :=
  ["cny_rate"; "weight_tariff"; "volume_coefficient"; "photo_report";
   "duty_free_threshold"].

(** A settings file as save_settings writes it for the last setup step. *)
Definition written (f : gmap string string) : Prop :=
  exists m : Settings, f = Dec.to_string <$> m /\ has_keys m settings_keys.

Definition ctx_ok (c : FSMContext) : Prop :=
  has_keys (fsm_data c) (required (fsm_state c)).

Definition files_ok (fs : Files) : Prop :=
  forall uid f, fs !! uid = Some f -> written f.

Definition well_formed (w : World) : Prop :=
  (forall uid, ctx_ok (ctx_of uid w)) /\ files_ok (files w).

Lemma has_keys_insert (m : Settings) (l : list string) (k : string) (v : Decimal) :
  has_keys m l -> has_keys (<[k := v]> m) (k :: l).
Proof.
  intros H. constructor.
  - rewrite lookup_insert_eq. eauto.
  - eapply Forall_impl; [exact H|]. intros k' [x Hx]. simpl.
    destruct (decide (k = k')) as [->|Hne].
    + rewrite lookup_insert_eq. eauto.
    + rewrite lookup_insert_ne by assumption. eauto.
Qed.

Lemma has_keys_tail (m : Settings) (k : string) (l : list string) :
  has_keys m (k :: l) -> has_keys m l.
Proof. intros H. now inversion H. Qed.

Lemma ctx_of_same (uid : Z) (w w' : World) :
  storage w' = storage w -> ctx_of uid w' = ctx_of uid w.
Proof. unfold ctx_of. now intros ->. Qed.

(** Once the context of [uid] is in order, a step that touched nothing
    else keeps the process well formed. *)
Lemma well_formed_frame (uid : Z) (w w' : World) :
  same_but_ctx uid w w' -> well_formed w -> ctx_ok (ctx_of uid w') ->
  well_formed w'.
Proof.
  intros [Hf Hs] [Hc Hfs] Hu. split.
  - intros uid'. destruct (decide (uid' = uid)) as [->|Hne]; [exact Hu|].
    unfold ctx_of. rewrite (Hs uid' Hne). apply Hc.
  - now rewrite Hf.
Qed.

Lemma ctx_of_set_state (uid : Z) (st : DeliveryStates) (w : World) :
  ctx_of uid (set_state uid st w)
    = {| fsm_state := Some st; fsm_data := fsm_data (ctx_of uid w) |}.
Proof. unfold set_state. rewrite ctx_of_with_ctx. now rewrite decide_True. Qed.

Lemma ctx_of_update_data (uid : Z) (k : string) (v : Decimal) (w : World) :
  ctx_of uid (update_data uid k v w)
    = {| fsm_state := fsm_state (ctx_of uid w);
         fsm_data := <[k := v]> (fsm_data (ctx_of uid w)) |}.
Proof. unfold update_data. rewrite ctx_of_with_ctx. now rewrite decide_True. Qed.

Lemma ctx_of_clear (uid : Z) (w : World) : ctx_of uid (clear uid w) = empty_ctx.
Proof. unfold clear. rewrite ctx_of_with_ctx. now rewrite decide_True. Qed.

(** The context of the sender after process_calculation: untouched,
    moved to manual_eur_rate with the same data, or cleared. *)
Lemma process_calculation_ctx (n : Net) (uid : Z) (w : World) :
  ctx_of uid (world (process_calculation n uid w)) = ctx_of uid w \/
  ctx_of uid (world (process_calculation n uid w))
    = {| fsm_state := Some manual_eur_rate; fsm_data := fsm_data (ctx_of uid w) |} \/
  ctx_of uid (world (process_calculation n uid w)) = empty_ctx.
Proof.
  unfold process_calculation.
  assert (Hctx : ctx_of uid (snd (run_fetch n w)) = ctx_of uid w) by reflexivity.
  destruct (run_fetch n w) as [rate w1]. simpl in Hctx.
  destruct (load_settings uid (files w)) as [[st|]|e]; auto.
  - destruct (settings_present (Some st)); auto.
    destruct (usable_rate rate).
    + destruct (compute _ _ _ ≫= _); right; right; apply ctx_of_clear.
    + right; left. cbn [world done_]. now rewrite ctx_of_set_state, Hctx.
  - right; right. apply ctx_of_clear.
Qed.

Lemma assemble_settings_keys (data : Settings) (threshold : Decimal) (st : Settings) :
  assemble_settings data threshold = Ok st -> has_keys st settings_keys.
Proof.
  unfold assemble_settings, getitem.
  repeat match goal with
         | |- context [data !! ?k] => destruct (data !! k); [|discriminate]
         end.
  cbn [mbind result_bind]. intros H. inversion H.
  repeat constructor; simplify_map_eq; eauto.
Qed.

Lemma assemble_settings_defined (data : Settings) (threshold : Decimal) :
  has_keys data (required (Some setup_duty_free_threshold)) ->
  exists st, assemble_settings data threshold = Ok st.
Proof.
  intros H. cbn [required] in H.
  repeat match goal with
         | H : has_keys _ (_ :: _) |- _ => inversion H; subst; clear H
         | H : Forall _ (_ :: _) |- _ => inversion H; subst; clear H
         end.
  unfold assemble_settings, getitem.
  repeat match goal with
         | H : is_Some (data !! ?k) |- _ => destruct H as [? ->]
         end.
  cbn [mbind result_bind]. eauto.
Qed.

Lemma state_handler_well_formed (n : Net) (s : DeliveryStates) (uid : Z)
    (text : option string) (w : World) :
  fsm_state (ctx_of uid w) = Some s -> well_formed w ->
  well_formed (world (state_handler n s uid text w)).
Proof.
  intros Hs Hw. pose proof (proj1 Hw uid) as Hc. unfold ctx_ok in Hc.
  rewrite Hs in Hc.
  assert (Hadv : forall strict key next,
             required (Some next) = key :: required (Some s) ->
             well_formed (world (numeric_handler strict text w
                                   (store_and_advance uid key next w)))).
  { intros strict key next Hreq.
    apply numeric_handler_frame; [exact Hw|]. intros v _.
    apply (well_formed_frame uid w); [|exact Hw|].
    - eapply same_but_ctx_trans;
        [apply same_but_ctx_update_data|apply same_but_ctx_set_state].
    - cbn [world done_ store_and_advance].
      rewrite ctx_of_set_state, ctx_of_update_data. unfold ctx_ok.
      cbn [fsm_state fsm_data]. rewrite Hreq. now apply has_keys_insert. }
  assert (Hcalc : forall w2,
             same_but_ctx uid w w2 ->
             ctx_ok (ctx_of uid w2) ->
             has_keys (fsm_data (ctx_of uid w2)) (required (Some manual_eur_rate)) ->
             well_formed (world (process_calculation n uid w2))).
  { intros w2 Hframe Hok Hkeys.
    apply (well_formed_frame uid w);
      [eapply same_but_ctx_trans; [exact Hframe|apply process_calculation_frame]
      |exact Hw|].
    destruct (process_calculation_ctx n uid w2) as [->|[->| ->]];
      [exact Hok|exact Hkeys|repeat constructor]. }
  destruct s; cbn [state_handler];
    try (apply Hadv; reflexivity).
  - unfold process_duty_free_threshold.
    apply numeric_handler_frame; [exact Hw|]. intros v _.
    destruct (assemble_settings (fsm_data (ctx_of uid w)) v) as [st|e] eqn:Ha;
      [|exact Hw].
    cbn [world done_]. split.
    + intros uid'. unfold clear. rewrite ctx_of_with_ctx.
      destruct (decide (uid = uid')); [repeat constructor|exact (proj1 Hw uid')].
    + intros uid' f. cbn. unfold save_settings. rewrite lookup_insert.
      destruct (decide (uid = uid')).
      * intros [= <-]. exists st. split; [reflexivity|].
        exact (assemble_settings_keys _ v st Ha).
      * apply Hw.
  - unfold process_manual_eur_rate.
    apply numeric_handler_frame; [exact Hw|]. intros v _.
    apply Hcalc; [split; auto| |]; unfold ctx_ok;
      change (ctx_of uid (set_last_eur_rate (Some v) w)) with (ctx_of uid w);
      rewrite ?Hs; exact Hc.
  - unfold process_delivery_ru.
    apply numeric_handler_frame; [exact Hw|]. intros v _.
    apply Hcalc; [apply same_but_ctx_update_data| |];
      unfold ctx_ok; rewrite ctx_of_update_data; cbn [fsm_state fsm_data];
      rewrite ?Hs.
    + apply has_keys_tail with (k := "delivery_ru").
      now apply (has_keys_insert _ _ "delivery_ru").
    + now apply (has_keys_insert _ _ "delivery_ru").
Qed.

Lemma start_command_well_formed (uid : Z) (w : World) :
  well_formed w -> well_formed (world (start_command uid w)).
Proof.
  intros Hw. apply (well_formed_frame uid w);
    [apply start_command_frame|exact Hw|].
  unfold start_command.
  destruct (load_settings uid (files w)) as [o|e]; [|apply Hw].
  destruct (settings_present o); [apply Hw|].
  cbn [world done_]. rewrite ctx_of_set_state. repeat constructor.
Qed.

Lemma clear_well_formed (uid : Z) (w : World) :
  well_formed w -> well_formed (clear uid w).
Proof.
  intros Hw. apply (well_formed_frame uid w);
    [apply same_but_ctx_clear|exact Hw|].
  rewrite ctx_of_clear. repeat constructor.
Qed.

Lemma dispatch_well_formed (n : Net) (uid : Z) (text caption : option string)
    (w : World) :
  well_formed w -> well_formed (world (dispatch_message n uid text caption w)).
Proof.
  intros Hw. apply (dispatch_message_cases (fun o => well_formed (world o))).
  - now apply start_command_well_formed.
  - now apply start_command_well_formed, clear_well_formed.
  - apply (well_formed_frame uid w);
      [apply same_but_ctx_set_state|exact Hw|].
    cbn [world done_ settings_menu]. rewrite ctx_of_set_state. repeat constructor.
  - apply (well_formed_frame uid w);
      [apply same_but_ctx_set_state|exact Hw|].
    cbn [world done_ start_calculation]. rewrite ctx_of_set_state. repeat constructor.
  - intros s Hs. now apply state_handler_well_formed.
  - exact Hw.
Qed.

Lemma reachable_well_formed (w : World) : reachable w -> well_formed w.
Proof.
  induction 1 as [|w n uid text caption _ IH].
  - split.
    + intros uid. repeat constructor.
    + intros uid f H. cbn in H. rewrite lookup_empty in H. discriminate H.
  - now apply dispatch_well_formed.
Qed.

Lemma has_keys_nonempty (m : Settings) : has_keys m settings_keys -> m <> ∅.
Proof.
  intros H Hm. inversion H as [|? ? [x Hx] _]. subst.
  rewrite lookup_empty in Hx. discriminate Hx.
Qed.

Lemma load_settings_written (uid : Z) (fs : Files) :
  files_ok fs ->
  load_settings uid fs = Ok None \/
  exists st, load_settings uid fs = Ok (Some st) /\
             has_keys st settings_keys /\ settings_present (Some st) = true.
Proof.
  intros Hfs. unfold load_settings.
  destruct (fs !! uid) as [f|] eqn:Hf; [right|now left].
  destruct (Hfs uid f Hf) as (m & -> & Hm).
  exists m. rewrite load_dict_saved. repeat split; [exact Hm|].
  cbn. apply negb_true_iff, bool_decide_eq_false. now apply has_keys_nonempty.
Qed.

(** X7. In every reachable state of the process each settings file loads
    without an exception and holds all five settings, so a user either has
    no settings or complete ones. *)
Theorem settings_always_load (w : World) (uid : Z) :
  reachable w ->
  load_settings uid (files w) = Ok None \/
  exists st, load_settings uid (files w) = Ok (Some st) /\
             has_keys st settings_keys /\ settings_present (Some st) = true.
Proof.
  intros Hw. apply load_settings_written.
  exact (proj2 (reachable_well_formed w Hw)).
Qed.

Lemma settings_always_load_witness :
  load_settings 7 (files world_manual) = Ok None \/
  exists st, load_settings 7 (files world_manual) = Ok (Some st) /\
             has_keys st settings_keys /\ settings_present (Some st) = true.
Proof.
  apply (settings_always_load world_manual 7).
  apply reachable_run. constructor.
Defined.

Lemma checked_input_raises (strict : bool) (text : option string) (e : exn) :
  checked_input strict text = Raise e ->
  e = ValueError \/
  (e = InvalidOperation /\
   exists v, parse_decimal text = Ok v /\ is_nan v = true).
Proof.
  unfold checked_input. destruct (parse_decimal text) as [v|e'] eqn:Hp.
  - rewrite range_check. destruct (is_nan v) eqn:Hn.
    + intros [= <-]. right. split; [reflexivity|]. eauto.
    + destruct (cmp v zero), strict; intros [= <-]; auto.
  - cbn [mbind result_bind]. intros [= <-]. left.
    exact (parse_decimal_raises text e' Hp).
Qed.

Lemma process_calculation_caught (n : Net) (uid : Z) (w : World) :
  uncaught (process_calculation n uid w) = None.
Proof.
  unfold process_calculation. destruct (run_fetch n w) as [rate w1].
  destruct (load_settings uid (files w)) as [[st|]|e]; try reflexivity.
  destruct (settings_present (Some st)); [|reflexivity].
  destruct (usable_rate rate); [|reflexivity].
  destruct (compute _ _ _ ≫= _); reflexivity.
Qed.

Lemma start_command_caught (uid : Z) (w : World) :
  files_ok (files w) -> uncaught (start_command uid w) = None.
Proof.
  intros Hfs. unfold start_command.
  destruct (load_settings_written uid (files w) Hfs) as [->|(st & -> & _ & ->)];
    reflexivity.
Qed.

(** X8. In a reachable state the only exception that leaves a handler is
    decimal.InvalidOperation, and only for a text that parses to a NaN: no
    handler fails on a missing key or on a settings file. *)
Theorem uncaught_only_nan (n : Net) (uid : Z) (text : option string) (w : World)
    (e : exn) :
  reachable w ->
  uncaught (dispatch n uid text w) = Some e ->
  e = InvalidOperation /\ exists v, parse_decimal text = Ok v /\ is_nan v = true.
Proof.
  intros Hr. pose proof (reachable_well_formed w Hr) as [Hctx Hfs].
  apply (dispatch_cases
           (fun o => uncaught o = Some e ->
                     e = InvalidOperation /\
                     exists v, parse_decimal text = Ok v /\ is_nan v = true));
    try discriminate.
  - now rewrite start_command_caught.
  - now rewrite start_command_caught.
  - intros s Hs.
    destruct (state_handler_numeric n s uid text w) as [k Hk].
    destruct (numeric_handler_cases (strict_of s) text w k)
      as [(v & Hc & Hv)|[(_ & Hv)|(e' & Hc & Hne & Hv)]].
    + intros Hu. exfalso. revert Hu.
      pose proof (Hctx uid) as Hok. unfold ctx_ok in Hok. rewrite Hs in Hok.
      destruct s; cbn [state_handler];
        unfold process_cny_rate, process_weight_tariff, process_volume_coefficient,
               process_photo_report, process_duty_free_threshold,
               process_manual_eur_rate, process_length, process_width,
               process_height, process_weight, process_price_cny,
               process_delivery_ru, numeric_handler;
        cbn [strict_of] in Hc; rewrite Hc; try discriminate;
        rewrite ?process_calculation_caught; try discriminate.
      destruct (assemble_settings_defined _ v Hok) as [st ->]. discriminate.
    + rewrite Hk, Hv. discriminate.
    + rewrite Hk, Hv. cbn [uncaught]. intros [= <-].
      destruct (checked_input_raises _ _ _ Hc) as [->|H]; [congruence|exact H].
Qed.

Lemma uncaught_only_nan_witness :
  InvalidOperation = InvalidOperation /\
  exists v, parse_decimal (Some "nan") = Ok v /\ is_nan v = true.
Proof.
  apply (uncaught_only_nan net_down 7 (Some "nan") world_manual InvalidOperation).
  - apply reachable_run. constructor.
  - vm_compute. reflexivity.
Defined.

(** ** Why a calculation fails *)

Definition arithmetic_fault (e : exn) : Prop :=
  e = Overflow \/ e = InvalidOperation.

Definition faults_ok {A : Type} (r : result A) : Prop :=
  forall e, r = Raise e -> arithmetic_fault e.

Lemma faults_ok_ok {A : Type} (a : A) : faults_ok (Ok a).
Proof. intros e H. discriminate H. Qed.

Lemma faults_ok_bind {A B : Type} (r : result A) (k : A -> result B) :
  faults_ok r -> (forall a, faults_ok (k a)) -> faults_ok (r ≫= k).
Proof.
  intros Hr Hk. destruct r as [a|e]; cbn [mbind result_bind].
  - apply Hk.
  - intros e' H. inversion H. subst. now apply Hr.
Qed.

Lemma faults_ok_fix (s : bool) (c : N) (e : Z) : faults_ok (fix_ s c e).
Proof.
  unfold fix_. intros x.
  repeat match goal with
         | |- context [if ?b then _ else _] => destruct b
         end; intros H; inversion H; now left.
Qed.

Lemma faults_ok_check_nans (a b : Decimal) (r : result Decimal) :
  check_nans a b = Some r -> faults_ok r.
Proof.
  unfold check_nans.
  destruct a as [? ? ?|?|? [|] ?], b as [? ? ?|?|? [|] ?];
    intros H; inversion H; intros e He; inversion He; now right.
Qed.

Lemma faults_ok_mul (a b : Decimal) : faults_ok (Dec.mul a b).
Proof.
  unfold Dec.mul. destruct (check_nans a b) as [r|] eqn:Hn.
  - exact (faults_ok_check_nans a b r Hn).
  - destruct a, b; try apply faults_ok_fix;
      try match goal with |- context [if ?c then _ else _] => destruct c end;
      intros e He; inversion He; now right.
Qed.

Lemma faults_ok_add (a b : Decimal) : faults_ok (Dec.add a b).
Proof.
  unfold Dec.add. destruct (check_nans a b) as [r|] eqn:Hn.
  - exact (faults_ok_check_nans a b r Hn).
  - destruct a, b; try apply faults_ok_fix;
      try match goal with |- context [if ?c then _ else _] => destruct c end;
      intros e He; inversion He; now right.
Qed.

Lemma faults_ok_sub (a b : Decimal) : faults_ok (Dec.sub a b).
Proof.
  unfold Dec.sub. destruct (check_nans a b) as [r|] eqn:Hn.
  - exact (faults_ok_check_nans a b r Hn).
  - apply faults_ok_add.
Qed.

Lemma faults_ok_compare (f : comparison -> bool) (a b : Decimal) :
  faults_ok (compare_with f a b).
Proof.
  unfold compare_with. destruct (is_nan a || is_nan b);
    intros e He; inversion He; now right.
Qed.

Lemma faults_ok_div (a b : Decimal) : is_zero b = false -> faults_ok (Dec.div a b).
Proof.
  intros Hb. unfold Dec.div. destruct (check_nans a b) as [r|] eqn:Hn.
  - exact (faults_ok_check_nans a b r Hn).
  - destruct a as [s1 c1 e1|s1|], b as [s2 c2 e2|s2|];
      try (intros e He; inversion He; now right).
    simpl in Hb. rewrite Hb.
    destruct (c1 =? 0)%N; [apply faults_ok_fix|].
    destruct (negb _); [apply faults_ok_fix|].
    destruct (strip_zeros _ _ _ _). apply faults_ok_fix.
Qed.

Lemma getitem_present (m : Settings) (k : string) :
  is_Some (m !! k) -> exists v, getitem m k = Ok v.
Proof. intros [v Hv]. exists v. unfold getitem. now rewrite Hv. Qed.

Ltac split_keys H :=
  repeat match goal with
         | H : has_keys _ (_ :: _) |- _ => inversion H; subst; clear H
         | H : Forall _ (_ :: _) |- _ => inversion H; subst; clear H
         | H : Forall _ [] |- _ => clear H
         | H : is_Some (_ !! _) |- _ =>
             apply getitem_present in H; destruct H as [? H]
         end.

(** With all the parcel values and settings in place and a rate that is
    not zero, the arithmetic raises nothing but Overflow or
    InvalidOperation. *)
Lemma compute_faults (data settings : Settings) (rate : Decimal) :
  has_keys data (required (Some manual_eur_rate)) ->
  has_keys settings settings_keys -> is_zero rate = false ->
  faults_ok (compute data settings rate).
Proof.
  intros Hd Hs Hrate. cbn [required] in Hd. unfold settings_keys in Hs.
  split_keys Hd. unfold compute.
  repeat match goal with
         | H : getitem _ _ = Ok _ |- _ => rewrite !H; clear H
         end.
  cbn [mbind result_bind].
  repeat first
    [ apply faults_ok_ok
    | apply faults_ok_mul | apply faults_ok_add | apply faults_ok_sub
    | apply faults_ok_compare
    | apply faults_ok_div; [reflexivity || exact Hrate]
    | apply faults_ok_bind; [|intros ?]
    | match goal with |- faults_ok (if ?b then _ else _) => destruct b end ].
Qed.

Lemma render_defined (data settings : Settings) (b : Breakdown) :
  has_keys settings settings_keys ->
  render data settings b = Ok (CalcResult settings data b).
Proof.
  intros Hs. unfold settings_keys in Hs. split_keys Hs. unfold render.
  repeat match goal with
         | H : getitem _ _ = Ok _ |- _ => rewrite !H; clear H
         end.
  reflexivity.
Qed.

Lemma store_and_advance_result_failed (strict : bool) (uid : Z)
    (text : option string) (key : string) (next : DeliveryStates) (w : World) :
  ~ In CalcFailed
       (replies (numeric_handler strict text w (store_and_advance uid key next w))).
Proof.
  intros Hr. apply numeric_handler_replies in Hr.
  destruct Hr as [(v & _ & [Hv|[]])|[Hr|Hr]]; discriminate.
Qed.

Lemma process_calculation_failure (n : Net) (uid : Z) (w : World) :
  files_ok (files w) ->
  has_keys (fsm_data (ctx_of uid w)) (required (Some manual_eur_rate)) ->
  In CalcFailed (replies (process_calculation n uid w)) ->
  exists st rate e,
    load_settings uid (files w) = Ok (Some st) /\
    usable_rate (returned (fetch_eur_rate n (last_eur_rate w))) = Some rate /\
    is_zero rate = false /\
    compute (fsm_data (ctx_of uid w)) st rate = Raise e /\ arithmetic_fault e.
Proof.
  intros Hfs Hkeys. unfold process_calculation, run_fetch.
  destruct (load_settings_written uid (files w) Hfs) as [->|(st & -> & Hst & ->)].
  - intros [H|[]]. discriminate H.
  - destruct (usable_rate _) as [r|] eqn:Hu;
      [|intros [H|[]]; discriminate H].
    pose proof (usable_rate_nonzero _ _ Hu) as Hz.
    destruct (compute (fsm_data (ctx_of uid w)) st r) as [b|e] eqn:Hc;
      cbn [mbind result_bind].
    + rewrite (render_defined _ _ b Hst). intros [H|[]]. discriminate H.
    + intros _. exists st, r, e. repeat split; auto.
      exact (compute_faults _ _ _ Hkeys Hst Hz e Hc).
Qed.

(** X9. In a reachable state a message is answered with the failure
    message of the calculation only in one way: the sender is in the last
    parcel state or in manual_eur_rate, the text is accepted there, the
    sender's settings load, the rate lookup run for this message (from the
    last known rate, or from the manual rate just entered) gives a rate that
    is not zero, and the arithmetic on the sender's collected values (with
    the delivery fee just entered), these settings and this rate raises
    Overflow or InvalidOperation.  So the failure message never stands for a
    missing value, a missing setting or a division by zero. *)
Theorem calculation_fails_on_arithmetic (n : Net) (uid : Z) (text : option string)
    (w : World) :
  reachable w ->
  In CalcFailed (replies (dispatch n uid text w)) ->
  exists s v st rate e,
    fsm_state (ctx_of uid w) = Some s /\
    (s = calc_delivery_ru \/ s = manual_eur_rate) /\
    checked_input (strict_of s) text = Ok v /\
    load_settings uid (files w) = Ok (Some st) /\
    usable_rate (returned (fetch_eur_rate n
                             (if bool_decide (s = manual_eur_rate) then Some v
                              else last_eur_rate w))) = Some rate /\
    is_zero rate = false /\
    compute (if bool_decide (s = manual_eur_rate) then fsm_data (ctx_of uid w)
             else <["delivery_ru" := v]> (fsm_data (ctx_of uid w))) st rate
      = Raise e /\
    arithmetic_fault e.
Proof.
  intros Hr. pose proof (reachable_well_formed w Hr) as [Hctx Hfs].
  apply (dispatch_cases
           (fun o => In CalcFailed (replies o) ->
                     exists s v st rate e,
                       fsm_state (ctx_of uid w) = Some s /\
                       (s = calc_delivery_ru \/ s = manual_eur_rate) /\
                       checked_input (strict_of s) text = Ok v /\
                       load_settings uid (files w) = Ok (Some st) /\
                       usable_rate
                         (returned (fetch_eur_rate n
                                      (if bool_decide (s = manual_eur_rate)
                                       then Some v else last_eur_rate w)))
                         = Some rate /\
                       is_zero rate = false /\
                       compute (if bool_decide (s = manual_eur_rate)
                                then fsm_data (ctx_of uid w)
                                else <["delivery_ru" := v]> (fsm_data (ctx_of uid w)))
                               st rate = Raise e /\
                       arithmetic_fault e)).
  - intros H. apply start_command_replies in H. intuition discriminate.
  - intros H. apply start_command_replies in H. intuition discriminate.
  - cbn. intuition discriminate.
  - cbn. intuition discriminate.
  - intros s Hs. pose proof (Hctx uid) as Hok. unfold ctx_ok in Hok.
    rewrite Hs in Hok.
    destruct s; cbn [state_handler];
      try (intros H; exfalso; revert H; apply store_and_advance_result_failed).
    + intros H. apply numeric_handler_replies in H.
      destruct H as [(v & _ & Hv)|[H|H]]; try discriminate.
      destruct (assemble_settings _ _); cbn in Hv; intuition discriminate.
    + intros H. apply numeric_handler_replies in H.
      destruct H as [(v & Hc & Hv)|[H|H]]; try discriminate.
      apply process_calculation_failure in Hv; [|exact Hfs|exact Hok].
      destruct Hv as (st & rate & e & H1 & H2 & H3 & H4 & H5).
      exists manual_eur_rate, v, st, rate, e. repeat split; auto.
    + intros H. apply numeric_handler_replies in H.
      destruct H as [(v & Hc & Hv)|[H|H]]; try discriminate.
      apply process_calculation_failure in Hv; [|exact Hfs|].
      * destruct Hv as (st & rate & e & H1 & H2 & H3 & H4 & H5).
        rewrite ctx_of_update_data in H4. cbn [fsm_data] in H4.
        exists calc_delivery_ru, v, st, rate, e. repeat split; auto.
      * rewrite ctx_of_update_data. cbn [fsm_data].
        now apply (has_keys_insert _ _ "delivery_ru").
  - intros [].
Qed.

(** A quote page that shows NaN as the price. *)
Definition net_nan : Net :=
  {| cbr := NetError; cbr_json := NetError; google := Http 200 (Some "NaN");
     bot_username := Some "china_delivery_bot" |}.

Lemma calculation_fails_on_arithmetic_witness :
  exists s v st rate e,
    fsm_state (ctx_of 7 world_manual) = Some s /\
    (s = calc_delivery_ru \/ s = manual_eur_rate) /\
    checked_input (strict_of s) (Some "90") = Ok v /\
    load_settings 7 (files world_manual) = Ok (Some st) /\
    usable_rate (returned (fetch_eur_rate net_nan
                             (if bool_decide (s = manual_eur_rate) then Some v
                              else last_eur_rate world_manual))) = Some rate /\
    is_zero rate = false /\
    compute (if bool_decide (s = manual_eur_rate)
             then fsm_data (ctx_of 7 world_manual)
             else <["delivery_ru" := v]> (fsm_data (ctx_of 7 world_manual))) st rate
      = Raise e /\
    arithmetic_fault e.
Proof.
  apply (calculation_fails_on_arithmetic net_nan 7 (Some "90") world_manual).
  - apply reachable_run. constructor.
  - vm_compute. left. reflexivity.
Defined.

(** X10. process_calculation lets no exception out and sends exactly one
    message: settings not found (nothing changes), the request for a manual
    rate (state manual_eur_rate, data kept), the result (state and data
    cleared) or the failure message (state and data cleared). *)
Theorem process_calculation_outcomes (n : Net) (uid : Z) (w : World) :
  uncaught (process_calculation n uid w) = None /\
  ((replies (process_calculation n uid w) = [SettingsNotFound] /\
    world (process_calculation n uid w) = w) \/
   (replies (process_calculation n uid w) = [AskManualRate] /\
    ctx_of uid (world (process_calculation n uid w))
      = {| fsm_state := Some manual_eur_rate;
           fsm_data := fsm_data (ctx_of uid w) |}) \/
   ((exists st b,
        replies (process_calculation n uid w)
          = [CalcResult st (fsm_data (ctx_of uid w)) b]) /\
    ctx_of uid (world (process_calculation n uid w)) = empty_ctx) \/
   (replies (process_calculation n uid w) = [CalcFailed] /\
    ctx_of uid (world (process_calculation n uid w)) = empty_ctx)).
Proof.
  split; [apply process_calculation_caught|].
  unfold process_calculation.
  assert (Hctx : ctx_of uid (snd (run_fetch n w)) = ctx_of uid w) by reflexivity.
  destruct (run_fetch n w) as [rate w1]. simpl in Hctx.
  destruct (load_settings uid (files w)) as [[st|]|e]; [|now left|].
  - destruct (settings_present (Some st)); [|now left].
    destruct (usable_rate rate) as [r|].
    + destruct (compute (fsm_data (ctx_of uid w)) st r) as [b|e];
        cbn [mbind result_bind].
      * destruct (render (fsm_data (ctx_of uid w)) st b) as [rep|e] eqn:Hr.
        -- right; right; left. split; [|apply ctx_of_clear].
           exists st, b. cbn [replies done_]. f_equal.
           unfold render in Hr.
           repeat match type of Hr with
                  | context [getitem ?m ?k] =>
                      destruct (getitem m k); cbn [mbind result_bind] in Hr
                  end; congruence.
        -- right; right; right. split; [reflexivity|apply ctx_of_clear].
      * right; right; right. split; [reflexivity|apply ctx_of_clear].
    + right; left. split; [reflexivity|].
      cbn [world done_]. now rewrite ctx_of_set_state, Hctx.
  - right; right; right. split; [reflexivity|apply ctx_of_clear].
Qed.

(** ** The rate lookup as a whole *)

Lemma fetch_from_cases (n : Net) (srcs : list Source) :
  (exists pre s post R,
      srcs = pre ++ s :: post /\ Forall (source_fails n) pre /\
      try_source s n = Ok (Some R)) \/
  Forall (source_fails n) srcs.
Proof.
  induction srcs as [|p srcs IH]; [right; constructor|].
  destruct (try_source p n) as [[R|]|e] eqn:Hp.
  - left. exists [], p, srcs, R. repeat split; auto.
  - destruct IH as [(pre & s & post & R & -> & Hpre & Hs)|Hall].
    + left. exists (p :: pre), s, post, R. repeat split; auto.
      constructor; [|exact Hpre]. intros r Hr. congruence.
    + right. constructor; [|exact Hall]. intros r Hr. congruence.
  - destruct IH as [(pre & s & post & R & -> & Hpre & Hs)|Hall].
    + left. exists (p :: pre), s, post, R. repeat split; auto.
      constructor; [|exact Hpre]. intros r Hr. congruence.
    + right. constructor; [|exact Hall]. intros r Hr. congruence.
Qed.

(** X11. Whatever the three sources answer: a returned rate is the last
    known rate afterwards, and it is either the answer of a source or the
    previous last known rate, which then is not zero and was returned because
    all sources failed; when nothing is returned all sources failed and the
    last known rate, absent or zero, is left as it was. *)
Theorem fetch_eur_rate_result (n : Net) (cached : option Decimal) :
  match returned (fetch_eur_rate n cached) with
  | Some r =>
      last_after (fetch_eur_rate n cached) = Some r /\
      ((exists s, try_source s n = Ok (Some r)) \/
       (all_sources_fail n /\ cached = Some r /\ is_zero r = false))
  | None =>
      all_sources_fail n /\ last_after (fetch_eur_rate n cached) = cached /\
      cached_result cached = None
  end.
Proof.
  unfold fetch_eur_rate, all_sources_fail.
  destruct (fetch_from_cases n [CBR; CBR_JSON; GoogleFinance])
    as [(pre & s & post & R & Hsplit & Hpre & Hs)|Hall].
  - rewrite Hsplit.
    destruct (fetch_from_success pre s post n cached [] R Hpre Hs) as (-> & -> & _).
    split; [reflexivity|]. left. eauto.
  - destruct (fetch_from_all_fail _ n cached [] Hall) as (-> & -> & _).
    unfold cached_result.
    destruct cached as [r|]; [|auto]. unfold truthy.
    destruct (is_zero r) eqn:Hz; cbn [negb]; auto.
Qed.

(** X12. Whatever the three sources answer, one call requests exactly the
    sources up to and including the first one that answers, in the fixed
    order CBR feed, JSON mirror, quote page: no source is requested after
    one has answered, none is skipped before it, and all three are
    requested when none answers. *)
Theorem fetch_eur_rate_requests (n : Net) (cached : option Decimal) :
  (exists pre s post R,
      [CBR; CBR_JSON; GoogleFinance] = pre ++ s :: post /\
      Forall (source_fails n) pre /\
      try_source s n = Ok (Some R) /\
      requests (events (fetch_eur_rate n cached)) = pre ++ [s]) \/
  (all_sources_fail n /\
   requests (events (fetch_eur_rate n cached)) = [CBR; CBR_JSON; GoogleFinance]).
Proof.
  unfold fetch_eur_rate, all_sources_fail.
  destruct (fetch_from_cases n [CBR; CBR_JSON; GoogleFinance])
    as [(pre & s & post & R & Hsplit & Hpre & Hs)|Hall].
  - left. exists pre, s, post, R. repeat split; auto.
    rewrite Hsplit.
    now destruct (fetch_from_success pre s post n cached [] R Hpre Hs)
      as (_ & _ & -> & _).
  - right. split; [exact Hall|].
    now destruct (fetch_from_all_fail _ n cached [] Hall) as (_ & _ & -> & _).
Qed.

(** ** Starting over *)

(** A text is a command of one name at most. *)
Lemma is_command_name (me : option string) (name name' text : string) :
  is_command me name text = true -> is_command me name' text = true ->
  name = name'.
Proof.
  unfold is_command. destruct (first_word text) as [|c rest]; [discriminate|].
  destruct (partition_at rest) as [command mention].
  intros H H'. apply andb_prop in H, H'.
  destruct H as [_ H], H' as [_ H'].
  apply bool_decide_eq_true in H, H'. subst command.
  rewrite <- (string_of_list_ascii_of_string name),
          <- (string_of_list_ascii_of_string name').
  now rewrite H'.
Qed.

(** The messages handled by restart_command or restart_button: the first
    word of the text or, without text, of the caption is /restart, with or
    without a mention of the bot, or the text is the label of the restart
    button. *)
Definition is_restart (me : option string) (text caption : option string) : bool :=
  command_is me "restart" (text_or_caption text caption)
  || text_is btn_restart text.

Lemma restart_not_start (me : option string) (text caption : option string) :
  is_restart me text caption = true ->
  command_is me "start" (text_or_caption text caption) = false.
Proof.
  intros H. destruct (command_is me "start" _) eqn:Hs; [|reflexivity].
  exfalso. unfold is_restart in H. apply orb_prop in H. destruct H as [H|H].
  - destruct (text_or_caption text caption) as [t|]; [|discriminate Hs].
    cbn [command_is] in *.
    pose proof (is_command_name me _ _ t H Hs) as E. discriminate E.
  - apply bool_decide_eq_true in H. subst text.
    vm_compute in Hs. discriminate Hs.
Qed.

Lemma dispatch_restart (n : Net) (uid : Z) (text caption : option string)
    (w : World) :
  is_restart (bot_username n) text caption = true ->
  dispatch_message n uid text caption w = start_command uid (clear uid w).
Proof.
  intros H. unfold dispatch_message.
  rewrite (restart_not_start _ text caption H).
  unfold is_restart in H.
  destruct (command_is _ "restart" _); [reflexivity|].
  simpl in H. now rewrite H.
Qed.

(** X13. In a reachable state, a message that is /restart for aiogram's
    Command filter (first word of the text or of the caption, any white
    space around it, with or without a mention of the bot) or the restart
    button discards what the sender had entered and the sender's state,
    whatever they were: a user with saved settings gets the menu and has no
    state, a user without is asked for the first setting; the settings files
    and the last known rate are not touched. *)
Theorem restart_discards_dialogue (n : Net) (uid : Z) (text caption : option string)
    (w : World) :
  reachable w ->
  is_restart (bot_username n) text caption = true ->
  uncaught (dispatch_message n uid text caption w) = None /\
  files (world (dispatch_message n uid text caption w)) = files w /\
  last_eur_rate (world (dispatch_message n uid text caption w)) = last_eur_rate w /\
  fsm_data (ctx_of uid (world (dispatch_message n uid text caption w))) = ∅ /\
  match files w !! uid with
  | Some _ =>
      fsm_state (ctx_of uid (world (dispatch_message n uid text caption w))) = None /\
      replies (dispatch_message n uid text caption w) = [WelcomeMenu]
  | None =>
      fsm_state (ctx_of uid (world (dispatch_message n uid text caption w)))
        = Some setup_cny_rate /\
      replies (dispatch_message n uid text caption w)
        = [WelcomeSetup; Prompt setup_cny_rate]
  end.
Proof.
  intros Hr Ht. rewrite (dispatch_restart n uid text caption w Ht).
  pose proof (proj2 (reachable_well_formed w Hr)) as Hfs.
  unfold start_command.
  change (files (clear uid w)) with (files w).
  unfold load_settings.
  destruct (files w !! uid) as [f|] eqn:Hf.
  - destruct (Hfs uid f Hf) as (m & -> & Hm). rewrite load_dict_saved.
    cbn [mbind result_bind].
    assert (settings_present (Some m) = true) as ->.
    { cbn. apply negb_true_iff, bool_decide_eq_false.
      now apply has_keys_nonempty. }
    cbn [world done_ uncaught replies]. rewrite ctx_of_clear.
    repeat split.
  - cbn [settings_present world done_ uncaught replies].
    rewrite ctx_of_set_state, ctx_of_clear. repeat split.
Qed.

(** A /restart with leading white space and a mention of the bot in other
    letter case. *)
Definition restart_text : option string :=
  Some "  /restart@China_Delivery_BOT now".

Lemma restart_discards_dialogue_witness :
  uncaught (dispatch_message net_down 7 restart_text None world_manual) = None /\
  files (world (dispatch_message net_down 7 restart_text None world_manual))
    = files world_manual /\
  last_eur_rate (world (dispatch_message net_down 7 restart_text None world_manual))
    = last_eur_rate world_manual /\
  fsm_data (ctx_of 7 (world (dispatch_message net_down 7 restart_text None
                               world_manual))) = ∅ /\
  match files world_manual !! 7 with
  | Some _ =>
      fsm_state (ctx_of 7 (world (dispatch_message net_down 7 restart_text None
                                     world_manual))) = None /\
      replies (dispatch_message net_down 7 restart_text None world_manual)
        = [WelcomeMenu]
  | None =>
      fsm_state (ctx_of 7 (world (dispatch_message net_down 7 restart_text None
                                     world_manual))) = Some setup_cny_rate /\
      replies (dispatch_message net_down 7 restart_text None world_manual)
        = [WelcomeSetup; Prompt setup_cny_rate]
  end.
Proof.
  apply (restart_discards_dialogue net_down 7 restart_text None world_manual).
  - apply reachable_run. constructor.
  - vm_compute. reflexivity.
Defined.

(** X14. /start is not a restart: for a user with saved settings, in a
    reachable state, a message that is /start for aiogram's Command filter
    (first word of the text or of the caption, any white space around it,
    with or without a mention of the bot) is answered with the menu and
    leaves the process as it is, the sender's state and entered values
    included. *)
Theorem start_keeps_dialogue (n : Net) (uid : Z) (text caption : option string)
    (w : World) :
  reachable w ->
  command_is (bot_username n) "start" (text_or_caption text caption) = true ->
  is_Some (files w !! uid) ->
  dispatch_message n uid text caption w = done_ w [WelcomeMenu].
Proof.
  intros Hr Ht [f Hf]. unfold dispatch_message. rewrite Ht.
  pose proof (proj2 (reachable_well_formed w Hr)) as Hfs.
  unfold start_command, load_settings. rewrite Hf.
  destruct (Hfs uid f Hf) as (m & -> & Hm). rewrite load_dict_saved.
  cbn [mbind result_bind].
  assert (settings_present (Some m) = true) as ->; [|reflexivity].
  cbn. apply negb_true_iff, bool_decide_eq_false. now apply has_keys_nonempty.
Qed.

Lemma start_keeps_dialogue_witness :
  dispatch_message net_down 7 None (Some "/start@china_delivery_bot") world_manual
    = done_ world_manual [WelcomeMenu].
Proof.
  apply (start_keeps_dialogue net_down 7 None (Some "/start@china_delivery_bot")
           world_manual).
  - apply reachable_run. constructor.
  - vm_compute. reflexivity.
  - vm_compute. eexists. reflexivity.
Defined.

(** ** The two chains of questions *)

(** The handlers that store a value and move on: the key they write and
    the state they set. *)
Definition step_of (s : DeliveryStates) : option (string * DeliveryStates) :=
  match s with
  | setup_cny_rate => Some ("cny_rate", setup_weight_tariff)
  | setup_weight_tariff => Some ("weight_tariff", setup_volume_coefficient)
  | setup_volume_coefficient => Some ("volume_coefficient", setup_photo_report)
  | setup_photo_report => Some ("photo_report", setup_duty_free_threshold)
  | calc_length => Some ("length", calc_width)
  | calc_width => Some ("width", calc_height)
  | calc_height => Some ("height", calc_weight)
  | calc_weight => Some ("weight", calc_price_cny)
  | calc_price_cny => Some ("price_cny", calc_delivery_ru)
  | setup_duty_free_threshold | manual_eur_rate | calc_delivery_ru => None
  end.

Lemma checked_input_parsed (strict : bool) (text : option string) (v : Decimal) :
  checked_input strict text = Ok v -> parse_decimal text = Ok v.
Proof. intros H. now apply checked_input_iff in H. Qed.

Lemma dispatch_accepted (n : Net) (s : DeliveryStates) (uid : Z)
    (text : option string) (w : World) (v : Decimal) (key : string)
    (next : DeliveryStates) :
  fsm_state (ctx_of uid w) = Some s ->
  step_of s = Some (key, next) ->
  checked_input (strict_of s) text = Ok v ->
  dispatch n uid text w
    = done_ (set_state uid next (update_data uid key v w)) [Prompt next].
Proof.
  intros Hs Hstep Hc.
  rewrite (dispatch_parsed n uid text w v (checked_input_parsed _ _ _ Hc)), Hs.
  destruct s; inversion Hstep; subst; cbn [state_handler strict_of] in *;
    unfold process_cny_rate, process_weight_tariff, process_volume_coefficient,
           process_photo_report, process_length, process_width, process_height,
           process_weight, process_price_cny, numeric_handler;
    rewrite Hc; reflexivity.
Qed.

(** X15. In each of the nine states whose handler only stores a value, an
    accepted text stores the value under the key of that step, overwriting
    an earlier value of that key and keeping the other entered values, moves
    the sender to the next state and sends the next question; files and the
    last known rate stay as they are. *)
Theorem accepted_input_advances (n : Net) (s : DeliveryStates) (uid : Z)
    (text : option string) (w : World) (v : Decimal) (key : string)
    (next : DeliveryStates) :
  fsm_state (ctx_of uid w) = Some s ->
  step_of s = Some (key, next) ->
  checked_input (strict_of s) text = Ok v ->
  replies (dispatch n uid text w) = [Prompt next] /\
  uncaught (dispatch n uid text w) = None /\
  ctx_of uid (world (dispatch n uid text w))
    = {| fsm_state := Some next;
         fsm_data := <[key := v]> (fsm_data (ctx_of uid w)) |} /\
  files (world (dispatch n uid text w)) = files w /\
  last_eur_rate (world (dispatch n uid text w)) = last_eur_rate w.
Proof.
  intros Hs Hstep Hc. rewrite (dispatch_accepted n s uid text w v key next Hs Hstep Hc).
  cbn [replies uncaught world done_].
  rewrite ctx_of_set_state, ctx_of_update_data. repeat split.
Qed.

Lemma accepted_input_advances_witness :
  replies (dispatch net_down 7 (Some " 1_0,50 ") world_calc_length)
    = [Prompt calc_width] /\
  uncaught (dispatch net_down 7 (Some " 1_0,50 ") world_calc_length) = None /\
  ctx_of 7 (world (dispatch net_down 7 (Some " 1_0,50 ") world_calc_length))
    = {| fsm_state := Some calc_width;
         fsm_data := <["length" := Fin false 1050 (-2)]>
                       (fsm_data (ctx_of 7 world_calc_length)) |} /\
  files (world (dispatch net_down 7 (Some " 1_0,50 ") world_calc_length))
    = files world_calc_length /\
  last_eur_rate (world (dispatch net_down 7 (Some " 1_0,50 ") world_calc_length))
    = last_eur_rate world_calc_length.
Proof.
  apply (accepted_input_advances net_down calc_length 7 (Some " 1_0,50 ")
           world_calc_length (Fin false 1050 (-2)) "length" calc_width).
  - vm_compute. reflexivity.
  - reflexivity.
  - vm_compute. reflexivity.
Defined.

(** User [uid] is in state [s] with the entered values [data], in a
    process with the files and the last known rate of [w0]. *)
Definition in_dialogue (uid : Z) (w0 : World) (s : DeliveryStates) (data : Settings)
    (w : World) : Prop :=
  ctx_of uid w = {| fsm_state := Some s; fsm_data := data |} /\
  files w = files w0 /\ last_eur_rate w = last_eur_rate w0.

Lemma in_dialogue_step (n : Net) (uid : Z) (w0 w : World) (s : DeliveryStates)
    (data : Settings) (text : option string) (v : Decimal) (key : string)
    (next : DeliveryStates) :
  in_dialogue uid w0 s data w ->
  step_of s = Some (key, next) ->
  checked_input (strict_of s) text = Ok v ->
  in_dialogue uid w0 next (<[key := v]> data) (world (dispatch n uid text w)).
Proof.
  intros (Hc & Hf & Hl) Hstep Hv.
  assert (Hs : fsm_state (ctx_of uid w) = Some s) by now rewrite Hc.
  rewrite (dispatch_accepted n s uid text w v key next Hs Hstep Hv).
  cbn [world done_]. split; [|split; assumption].
  now rewrite ctx_of_set_state, ctx_of_update_data, Hc.
Qed.

Lemma dispatch_settings_button (n : Net) (uid : Z) (w : World) :
  dispatch n uid (Some btn_settings) w = settings_menu uid w.
Proof. reflexivity. Qed.

(** The record that the setup chain saves. *)
Definition settings_of (cny_rate weight_tariff volume_coefficient photo_report
    duty_free_threshold : Decimal) : Settings :=
  <["cny_rate" := cny_rate]>
  (<["weight_tariff" := weight_tariff]>
   (<["volume_coefficient" := volume_coefficient]>
    (<["photo_report" := photo_report]>
     (<["duty_free_threshold" := duty_free_threshold]> ∅)))).

Definition setup_dialogue (n : Net) (t1 t2 t3 t4 t5 : option string)
    : list (Net * option string) :=
  [(n, Some btn_settings); (n, t1); (n, t2); (n, t3); (n, t4); (n, t5)].

(** X16. From any process state, the settings button followed by five
    accepted texts saves exactly the five values entered, in the order of
    the questions: loading the sender's settings afterwards returns them,
    whatever the sender had entered or saved before; the sender is left
    without state or data. *)
Theorem setup_dialogue_saves (n : Net) (uid : Z) (w : World)
    (t1 t2 t3 t4 t5 : option string) (v1 v2 v3 v4 v5 : Decimal) :
  checked_input true t1 = Ok v1 ->
  checked_input true t2 = Ok v2 ->
  checked_input true t3 = Ok v3 ->
  checked_input false t4 = Ok v4 ->
  checked_input true t5 = Ok v5 ->
  load_settings uid (files (run uid (setup_dialogue n t1 t2 t3 t4 t5) w))
    = Ok (Some (settings_of v1 v2 v3 v4 v5)) /\
  ctx_of uid (run uid (setup_dialogue n t1 t2 t3 t4 t5) w) = empty_ctx /\
  last_eur_rate (run uid (setup_dialogue n t1 t2 t3 t4 t5) w) = last_eur_rate w.
Proof.
  intros H1 H2 H3 H4 H5. unfold setup_dialogue. cbn [run].
  rewrite dispatch_settings_button.
  set (w0 := world (settings_menu uid w)).
  assert (D0 : in_dialogue uid w setup_cny_rate (fsm_data (ctx_of uid w)) w0).
  { subst w0. cbn [world done_ settings_menu]. split; [|split; reflexivity].
    apply ctx_of_set_state. }
  clearbody w0.
  pose proof (in_dialogue_step n uid w w0 _ _ t1 v1 _ _ D0 eq_refl H1) as D1.
  set (w1 := world (dispatch n uid t1 w0)) in *. clearbody w1.
  pose proof (in_dialogue_step n uid w w1 _ _ t2 v2 _ _ D1 eq_refl H2) as D2.
  set (w2 := world (dispatch n uid t2 w1)) in *. clearbody w2.
  pose proof (in_dialogue_step n uid w w2 _ _ t3 v3 _ _ D2 eq_refl H3) as D3.
  set (w3 := world (dispatch n uid t3 w2)) in *. clearbody w3.
  pose proof (in_dialogue_step n uid w w3 _ _ t4 v4 _ _ D3 eq_refl H4) as D4.
  set (w4 := world (dispatch n uid t4 w3)) in *. clearbody w4.
  destruct D4 as (Hc & Hf & Hl).
  rewrite (dispatch_parsed n uid t5 w4 v5 (checked_input_parsed _ _ _ H5)), Hc.
  cbn [fsm_state state_handler].
  unfold process_duty_free_threshold, numeric_handler. rewrite H5, Hc.
  cbn [fsm_data].
  assert (assemble_settings
            (<["photo_report" := v4]>
             (<["volume_coefficient" := v3]>
              (<["weight_tariff" := v2]>
               (<["cny_rate" := v1]> (fsm_data (ctx_of uid w))))))
            v5 = Ok (settings_of v1 v2 v3 v4 v5)) as ->.
  { unfold assemble_settings, getitem. simplify_map_eq. reflexivity. }
  cbn [world done_]. split; [|split].
  - unfold load_settings, save_settings. cbn [files clear with_ctx set_files].
    rewrite lookup_insert_eq, load_dict_saved. reflexivity.
  - apply ctx_of_clear.
  - exact Hl.
Qed.

Lemma setup_dialogue_saves_witness :
  load_settings 7
    (files (run 7 (setup_dialogue net_down (Some "11,9") (Some "350") (Some "55")
                     (Some "0") (Some "1e3")) world_manual))
    = Ok (Some (settings_of (Fin false 119 (-1)) (Fin false 350 0) (Fin false 55 0)
                  (Fin false 0 0) (Fin false 1 3))) /\
  ctx_of 7 (run 7 (setup_dialogue net_down (Some "11,9") (Some "350") (Some "55")
                     (Some "0") (Some "1e3")) world_manual) = empty_ctx /\
  last_eur_rate (run 7 (setup_dialogue net_down (Some "11,9") (Some "350")
                          (Some "55") (Some "0") (Some "1e3")) world_manual)
    = last_eur_rate world_manual.
Proof.
  apply (setup_dialogue_saves net_down 7 world_manual);
    vm_compute; reflexivity.
Defined.

(** The six values of a parcel as process_calculation reads them. *)
Definition parcel_keys : list string :=
  ["length"; "width"; "height"; "weight"; "price_cny"; "delivery_ru"].

Definition parcel_of (length width height weight price_cny delivery_ru : Decimal)
    : Settings :=
  <["length" := length]>
  (<["width" := width]>
   (<["height" := height]>
    (<["weight" := weight]>
     (<["price_cny" := price_cny]>
      (<["delivery_ru" := delivery_ru]> ∅))))).

(** The arithmetic reads the six parcel keys and nothing else of the
    entered data. *)
Lemma compute_reads_parcel (data data' settings : Settings) (rate : Decimal) :
  (forall k, In k parcel_keys -> data !! k = data' !! k) ->
  compute data settings rate = compute data' settings rate.
Proof.
  intros H.
  assert (Hg : forall k, In k parcel_keys -> getitem data k = getitem data' k).
  { intros k Hk. unfold getitem. now rewrite (H k Hk). }
  unfold compute.
  rewrite (Hg "length"), (Hg "width"), (Hg "height"), (Hg "weight"),
    (Hg "price_cny"), (Hg "delivery_ru") by (cbn; tauto).
  reflexivity.
Qed.

(** The sender can start a calculation: the calculate button is not taken
    by the handler of a setup state. *)
Definition outside_setup (uid : Z) (w : World) : Prop :=
  match fsm_state (ctx_of uid w) with
  | Some s => is_setup_state s = false
  | None => True
  end.

Lemma dispatch_calculate_button (n : Net) (uid : Z) (w : World) :
  outside_setup uid w ->
  dispatch n uid (Some btn_calculate) w = start_calculation uid w.
Proof.
  unfold outside_setup. rewrite dispatch_unfold.
  assert (Hc : forall me name, command_is me name (Some btn_calculate) = false)
    by reflexivity.
  rewrite !Hc.
  change (text_is btn_restart (Some btn_calculate)) with false.
  change (text_is btn_settings (Some btn_calculate)) with false.
  change (text_is btn_calculate (Some btn_calculate)) with true.
  cbv iota. destruct (fsm_state (ctx_of uid w)) as [s|]; [|reflexivity].
  now intros ->.
Qed.

Definition parcel_dialogue (n : Net) (t1 t2 t3 t4 t5 : option string)
    : list (Net * option string) :=
  [(n, Some btn_calculate); (n, t1); (n, t2); (n, t3); (n, t4); (n, t5)].

(** X17. In a reachable state, for a sender outside the setup chain whose
    settings load, the calculate button followed by six accepted texts ends
    in one calculation over exactly the six values entered, when the lookup
    at the last message gives a rate that is not zero: the result message
    carries the breakdown of these values, or the failure message is sent
    when the arithmetic raises; values left from an earlier dialogue under
    other keys play no part, and the sender is left without state or
    data. *)
Theorem parcel_dialogue_calculates (n nl : Net) (uid : Z) (w : World)
    (t1 t2 t3 t4 t5 t6 : option string) (v1 v2 v3 v4 v5 v6 : Decimal)
    (st : Settings) (rate : Decimal) :
  reachable w ->
  outside_setup uid w ->
  checked_input true t1 = Ok v1 ->
  checked_input true t2 = Ok v2 ->
  checked_input true t3 = Ok v3 ->
  checked_input true t4 = Ok v4 ->
  checked_input true t5 = Ok v5 ->
  checked_input false t6 = Ok v6 ->
  load_settings uid (files w) = Ok (Some st) ->
  usable_rate (returned (fetch_eur_rate nl (last_eur_rate w))) = Some rate ->
  ctx_of uid (world (dispatch nl uid t6
                       (run uid (parcel_dialogue n t1 t2 t3 t4 t5) w)))
    = empty_ctx /\
  match compute (parcel_of v1 v2 v3 v4 v5 v6) st rate with
  | Ok b =>
      exists data,
        replies (dispatch nl uid t6 (run uid (parcel_dialogue n t1 t2 t3 t4 t5) w))
          = [CalcResult st data b] /\
        forall k, In k parcel_keys ->
                  data !! k = parcel_of v1 v2 v3 v4 v5 v6 !! k
  | Raise _ =>
      replies (dispatch nl uid t6 (run uid (parcel_dialogue n t1 t2 t3 t4 t5) w))
        = [CalcFailed]
  end.
Proof.
  intros Hr Hout H1 H2 H3 H4 H5 H6 Hl Hu.
  pose proof (proj2 (reachable_well_formed w Hr)) as Hfs.
  destruct (load_settings_written uid (files w) Hfs) as [Hn|(st' & Hl' & Hkeys & Hp)];
    [congruence|].
  assert (st' = st) as -> by congruence. clear Hl'.
  unfold parcel_dialogue. cbn [run].
  rewrite (dispatch_calculate_button n uid w Hout).
  set (w0 := world (start_calculation uid w)).
  assert (D0 : in_dialogue uid w calc_length (fsm_data (ctx_of uid w)) w0).
  { subst w0. cbn [world done_ start_calculation]. split; [|split; reflexivity].
    apply ctx_of_set_state. }
  clearbody w0.
  pose proof (in_dialogue_step n uid w w0 _ _ t1 v1 _ _ D0 eq_refl H1) as D1.
  set (w1 := world (dispatch n uid t1 w0)) in *. clearbody w1.
  pose proof (in_dialogue_step n uid w w1 _ _ t2 v2 _ _ D1 eq_refl H2) as D2.
  set (w2 := world (dispatch n uid t2 w1)) in *. clearbody w2.
  pose proof (in_dialogue_step n uid w w2 _ _ t3 v3 _ _ D2 eq_refl H3) as D3.
  set (w3 := world (dispatch n uid t3 w2)) in *. clearbody w3.
  pose proof (in_dialogue_step n uid w w3 _ _ t4 v4 _ _ D3 eq_refl H4) as D4.
  set (w4 := world (dispatch n uid t4 w3)) in *. clearbody w4.
  pose proof (in_dialogue_step n uid w w4 _ _ t5 v5 _ _ D4 eq_refl H5) as D5.
  set (w5 := world (dispatch n uid t5 w4)) in *. clearbody w5.
  destruct D5 as (Hc & Hf & Hlast).
  rewrite (dispatch_parsed nl uid t6 w5 v6 (checked_input_parsed _ _ _ H6)), Hc.
  cbn [fsm_state state_handler].
  unfold process_delivery_ru, numeric_handler. rewrite H6.
  set (w6 := update_data uid "delivery_ru" v6 w5).
  assert (Hc6 : fsm_data (ctx_of uid w6)
                = <["delivery_ru" := v6]>
                    (<["price_cny" := v5]>
                     (<["weight" := v4]>
                      (<["height" := v3]>
                       (<["width" := v2]>
                        (<["length" := v1]> (fsm_data (ctx_of uid w)))))))).
  { subst w6. now rewrite ctx_of_update_data, Hc. }
  assert (Hf6 : files w6 = files w) by exact Hf.
  assert (Hl6 : last_eur_rate w6 = last_eur_rate w) by exact Hlast.
  clearbody w6.
  assert (Hsame : forall k, In k parcel_keys ->
                    fsm_data (ctx_of uid w6) !! k
                    = parcel_of v1 v2 v3 v4 v5 v6 !! k).
  { intros k Hk. rewrite Hc6. unfold parcel_of. cbn in Hk.
    destruct Hk as [<-|[<-|[<-|[<-|[<-|[<-|[]]]]]]]; simplify_map_eq; reflexivity. }
  rewrite <- (compute_reads_parcel _ _ st rate Hsame).
  unfold process_calculation, run_fetch. rewrite Hf6, Hl, Hp, Hl6, Hu.
  destruct (compute (fsm_data (ctx_of uid w6)) st rate) as [b|e];
    cbn [mbind result_bind].
  - rewrite (render_defined _ _ b Hkeys). cbn [world replies done_].
    split; [apply ctx_of_clear|]. eauto.
  - unfold calculation_failed. cbn [world replies done_].
    split; [apply ctx_of_clear|reflexivity].
Qed.

Lemma parcel_dialogue_calculates_witness :
  ctx_of 7 (world (dispatch net_rate_100 7 (Some "300")
                     (run 7 (parcel_dialogue net_down (Some "50") (Some "40")
                               (Some "30") (Some "5") (Some "1000")) world_manual)))
    = empty_ctx /\
  match compute (parcel_of (Fin false 50 0) (Fin false 40 0) (Fin false 30 0)
                   (Fin false 5 0) (Fin false 1000 0) (Fin false 300 0))
                scenario_settings (Fin false 100 0) with
  | Ok b =>
      exists data,
        replies (dispatch net_rate_100 7 (Some "300")
                   (run 7 (parcel_dialogue net_down (Some "50") (Some "40")
                             (Some "30") (Some "5") (Some "1000")) world_manual))
          = [CalcResult scenario_settings data b] /\
        forall k, In k parcel_keys ->
                  data !! k = parcel_of (Fin false 50 0) (Fin false 40 0)
                                (Fin false 30 0) (Fin false 5 0) (Fin false 1000 0)
                                (Fin false 300 0) !! k
  | Raise _ =>
      replies (dispatch net_rate_100 7 (Some "300")
                 (run 7 (parcel_dialogue net_down (Some "50") (Some "40")
                           (Some "30") (Some "5") (Some "1000")) world_manual))
        = [CalcFailed]
  end.
Proof.
  apply (parcel_dialogue_calculates net_down net_rate_100 7 world_manual).
  - apply reachable_run. constructor.
  - vm_compute. reflexivity.
  - vm_compute. reflexivity.
  - vm_compute. reflexivity.
  - vm_compute. reflexivity.
  - vm_compute. reflexivity.
  - vm_compute. reflexivity.
  - vm_compute. reflexivity.
  - vm_compute. reflexivity.
  - vm_compute. reflexivity.
Defined.

(** X18. While the sender is in one of the five setup states the calculate
    button does not start a calculation: its text goes to the handler of
    the state, which answers with its validation message and changes
    nothing. *)
Theorem calculate_button_during_setup (n : Net) (s : DeliveryStates) (uid : Z)
    (w : World) :
  fsm_state (ctx_of uid w) = Some s ->
  is_setup_state s = true ->
  dispatch n uid (Some btn_calculate) w = done_ w [retry_message s].
Proof.
  intros Hs Hsetup.
  assert (Ht : is_trigger (bot_username n) s (Some btn_calculate) = false).
  { unfold is_trigger. rewrite Hsetup. reflexivity. }
  rewrite (dispatch_state_handler n s uid _ w Hs Ht).
  destruct (state_handler_numeric n s uid (Some btn_calculate) w) as [k ->].
  unfold numeric_handler. rewrite checked_input_rejected; [reflexivity|].
  left. vm_compute. reflexivity.
Qed.

Lemma calculate_button_during_setup_witness :
  dispatch net_down 7 (Some btn_calculate)
           (world (dispatch net_down 7 (Some btn_settings) world_manual))
    = done_ (world (dispatch net_down 7 (Some btn_settings) world_manual))
            [retry_message setup_cny_rate].
Proof.
  apply (calculate_button_during_setup net_down setup_cny_rate 7).
  - vm_compute. reflexivity.
  - reflexivity.
Defined.

(** ** The XML feed *)

(** An element of the feed that the loop passes over. *)
Definition other_currency (v : Valute) : Prop :=
  exists t, CharCode v = Some t /\ t <> Some "EUR".

(** X19. The feed loop uses the first Valute element whose CharCode is
    EUR: the elements before it are passed over, the elements after it are
    never read, and its Value, with ',' read as '.', is converted as
    Decimal does it, so a text that is not a number raises
    InvalidOperation. *)
Theorem find_eur_first (pre post : list Valute) (v : Valute) (txt : string) :
  Forall other_currency pre ->
  CharCode v = Some (Some "EUR") ->
  Value v = Some (Some txt) ->
  find_eur (pre ++ v :: post)
    = match parse_decimal (Some txt) with
      | Ok d => Ok (Some d)
      | Raise _ => Raise InvalidOperation
      end.
Proof.
  intros Hpre Hc Hv. induction Hpre as [|u pre (t & Hu & Hne) _ IH].
  - cbn [app find_eur]. rewrite Hc, Hv.
    rewrite bool_decide_eq_true_2 by reflexivity.
    unfold parse_decimal, Dec.of_string, of_chars.
    destruct (split_sign _) as [s r].
    destruct (parse_number s r); [reflexivity|].
    destruct (parse_special s r); reflexivity.
  - cbn [app find_eur]. rewrite Hu.
    rewrite bool_decide_eq_false_2 by exact Hne. exact IH.
Qed.

Lemma find_eur_first_witness :
  find_eur ([{| CharCode := Some (Some "USD"); Value := Some (Some "91,2") |};
             {| CharCode := Some None; Value := None |}]
            ++ {| CharCode := Some (Some "EUR"); Value := Some (Some "98,7654") |}
            :: [{| CharCode := None; Value := None |}])
    = match parse_decimal (Some "98,7654") with
      | Ok d => Ok (Some d)
      | Raise _ => Raise InvalidOperation
      end.
Proof.
  apply find_eur_first.
  - repeat constructor; eexists; (split; [reflexivity|discriminate]).
  - reflexivity.
  - reflexivity.
Defined.

(** ** A settings file that the bot did not write *)

(** X20. A settings file in which some value is not a Decimal literal
    makes load_settings raise InvalidOperation, which it does not catch:
    /start then ends with that exception and sends nothing, while a
    calculation answers with the failure message and clears the sender's
    state. *)
Theorem corrupt_settings_file (n : Net) (uid : Z) (w : World)
    (f : gmap string string) (k v : string) (e : exn) :
  files w !! uid = Some f ->
  f !! k = Some v ->
  Dec.of_string v = Raise e ->
  load_settings uid (files w) = Raise InvalidOperation /\
  start_command uid w
    = {| world := w; replies := []; uncaught := Some InvalidOperation |} /\
  process_calculation n uid w = done_ (clear uid w) [CalcFailed].
Proof.
  intros Hf Hk Hv.
  assert (Hl : load_settings uid (files w) = Raise InvalidOperation).
  { unfold load_settings, load_dict. rewrite Hf.
    rewrite decide_False; [reflexivity|].
    intros Hall. specialize (Hall k v Hk). cbn in Hall.
    rewrite Hv in Hall. discriminate Hall. }
  split; [exact Hl|]. split.
  - unfold start_command. now rewrite Hl.
  - unfold process_calculation. now rewrite Hl.
Qed.

Definition world_corrupt : World :=
  world_at 7 calc_delivery_ru scenario_data
           {[ 7 := {[ "cny_rate" := "12,5" ]} ]} None.

Lemma corrupt_settings_file_witness :
  load_settings 7 (files world_corrupt) = Raise InvalidOperation /\
  start_command 7 world_corrupt
    = {| world := world_corrupt; replies := [];
         uncaught := Some InvalidOperation |} /\
  process_calculation net_rate_100 7 world_corrupt
    = done_ (clear 7 world_corrupt) [CalcFailed].
Proof.
  apply (corrupt_settings_file net_rate_100 7 world_corrupt
           {[ "cny_rate" := "12,5" ]} "cny_rate" "12,5" InvalidOperation).
  - vm_compute. reflexivity.
  - vm_compute. reflexivity.
  - vm_compute. reflexivity.
Defined.

(** ** Requests to the network *)

Lemma process_calculation_trace (n : Net) (uid : Z) (w : World) :
  trace (world (process_calculation n uid w)) = trace w \/
  exists st,
    load_settings uid (files w) = Ok (Some st) /\ st <> ∅ /\
    trace (world (process_calculation n uid w))
      = trace w ++ events (fetch_eur_rate n (last_eur_rate w)).
Proof.
  unfold process_calculation, run_fetch.
  destruct (load_settings uid (files w)) as [[st|]|e]; [|now left|now left].
  destruct (settings_present (Some st)) eqn:Hp; [|now left].
  right. exists st. split; [reflexivity|]. split.
  - cbn in Hp. apply negb_true_iff, bool_decide_eq_false in Hp. exact Hp.
  - destruct (usable_rate _); [|reflexivity].
    destruct (compute _ _ _ ≫= _); reflexivity.
Qed.

(** X21. A message makes the bot call the rate sources only when it is an
    accepted last parcel value or an accepted manual rate of a sender whose
    settings load and are not empty; the log then grows by the events of
    one rate lookup, started from the last known rate, which for a manual
    rate is the value just entered.  Every other message leaves the log as
    it is. *)
Theorem network_only_for_calculation (n : Net) (uid : Z) (text : option string)
    (w : World) :
  trace (world (dispatch n uid text w)) = trace w \/
  exists s v st,
    fsm_state (ctx_of uid w) = Some s /\
    (s = calc_delivery_ru \/ s = manual_eur_rate) /\
    checked_input (strict_of s) text = Ok v /\
    load_settings uid (files w) = Ok (Some st) /\ st <> ∅ /\
    trace (world (dispatch n uid text w))
      = trace w ++ events (fetch_eur_rate n
                             (if bool_decide (s = manual_eur_rate) then Some v
                              else last_eur_rate w)).
Proof.
  apply (dispatch_cases
           (fun o => trace (world o) = trace w \/
                     exists s v st,
                       fsm_state (ctx_of uid w) = Some s /\
                       (s = calc_delivery_ru \/ s = manual_eur_rate) /\
                       checked_input (strict_of s) text = Ok v /\
                       load_settings uid (files w) = Ok (Some st) /\ st <> ∅ /\
                       trace (world o)
                         = trace w ++ events (fetch_eur_rate n
                                                (if bool_decide (s = manual_eur_rate)
                                                 then Some v else last_eur_rate w))));
    try (left; reflexivity).
  - left. unfold start_command.
    destruct (load_settings uid (files w)) as [o|e]; [|reflexivity].
    destruct (settings_present o); reflexivity.
  - left. unfold start_command.
    destruct (load_settings uid (files (clear uid w))) as [o|e]; [|reflexivity].
    destruct (settings_present o); reflexivity.
  - intros s Hs.
    destruct (state_handler_numeric n s uid text w) as [k Hk].
    destruct (numeric_handler_cases (strict_of s) text w k)
      as [(v & Hc & Hv)|[(_ & Hv)|(e' & _ & _ & Hv)]];
      [|left; rewrite Hk, Hv; reflexivity|left; rewrite Hk, Hv; reflexivity].
    destruct s; cbn [state_handler strict_of] in *;
      unfold process_cny_rate, process_weight_tariff, process_volume_coefficient,
             process_photo_report, process_duty_free_threshold,
             process_manual_eur_rate, process_length, process_width,
             process_height, process_weight, process_price_cny,
             process_delivery_ru, numeric_handler;
      rewrite Hc; try (left; reflexivity).
    + left. destruct (assemble_settings _ _); reflexivity.
    + destruct (process_calculation_trace n uid (set_last_eur_rate (Some v) w))
        as [Ht|(st & Hl & Hne & Ht)]; [left; exact Ht|].
      right. exists manual_eur_rate, v, st. repeat split; auto.
    + destruct (process_calculation_trace n uid (update_data uid "delivery_ru" v w))
        as [Ht|(st & Hl & Hne & Ht)]; [left; exact Ht|].
      right. exists calc_delivery_ru, v, st. repeat split; auto.
Qed.

(** ** The values behind a state *)

(** X22. In every reachable state of the process, a sender who is in some
    state has entered every value that the questions before that state ask
    for: the handlers that read the collected data find all their keys. *)
Theorem entered_values_present (w : World) (uid : Z) :
  reachable w ->
  has_keys (fsm_data (ctx_of uid w)) (required (fsm_state (ctx_of uid w))).
Proof.
  intros Hr. exact (proj1 (reachable_well_formed w Hr) uid).
Qed.

Lemma entered_values_present_witness :
  has_keys (fsm_data (ctx_of 7 world_before_last))
           (required (fsm_state (ctx_of 7 world_before_last))).
Proof.
  apply (entered_values_present world_before_last 7).
  apply reachable_run. constructor.
Defined.
